(** * The Reverse Beacon Network overlay of OpenHamClock

    A shallow embedding of [src/plugins/layers/useRBN.js]: the grid locator
    decoder, the SNR and band classifiers, the great circle path generator,
    the statistics of the spot feed and the polling / redraw lifecycle of
    the map layer, followed by the properties of the overlay engine.

    Conventions of the embedding.
    - A JavaScript number is a [number]: a rational, [NaN] or one of the two
      infinities.  [binary64] rounds a rational to the nearest binary64
      number; the results are rounded where a comparison or a printed digit
      depends on it: the two differences of the guard of
      [getGreatCirclePath], the sums and the quotient of the average SNR.
      Elsewhere finite arithmetic is exact, and the negative zero is not
      modelled.  A number of the feed is the value of the binary64 number
      that [JSON.parse] made of it.
    - A field of a JSON record that may be missing is an [option] where the
      code treats [undefined] and [null] alike.  The name of the reporter
      and the time of a spot keep the two apart ([jsstring], [jstime]).
    - A string is a [string] of code units below 128; [toUpperCase] only
      moves the letters a-z.
    - Leaflet is outside the source: [L.polyline] and [L.circleMarker] are
      constructors that accept every coordinate, and [window.deLocation]
      is a global that the dashboard may assign at any time. *)

From Stdlib Require Import QArith Qround Qabs Qpower ZArith String Ascii List Lia Bool.
From Stdlib Require Import DecimalString Lqa Qminmax.
From stdpp Require Import base gmap sets list strings.

Open Scope Q_scope.

(** ** JavaScript numbers *)

Inductive number : Type :=
| Num (q : Q)
| NaN
| PosInf
| NegInf.

Declare Scope js_scope.
Delimit Scope js_scope with js.
Bind Scope js_scope with number.

Definition Qltb (x y : Q) : bool := negb (Qle_bool y x).

Definition inf_of_sign (q : Q) : number :=
  if Qeq_bool q 0 then NaN else if Qltb 0 q then PosInf else NegInf.

Definition nneg (a : number) : number :=
  match a with
  | Num x => Num (- x)
  | NaN => NaN
  | PosInf => NegInf
  | NegInf => PosInf
  end.

Definition nadd (a b : number) : number :=
  match a, b with
  | NaN, _ | _, NaN => NaN
  | Num x, Num y => Num (x + y)
  | PosInf, NegInf | NegInf, PosInf => NaN
  | PosInf, _ | _, PosInf => PosInf
  | NegInf, _ | _, NegInf => NegInf
  end.

Definition nsub (a b : number) : number := nadd a (nneg b).

Definition nmul (a b : number) : number :=
  match a, b with
  | NaN, _ | _, NaN => NaN
  | Num x, Num y => Num (x * y)
  | Num x, PosInf | PosInf, Num x => inf_of_sign x
  | Num x, NegInf | NegInf, Num x => inf_of_sign (- x)
  | PosInf, PosInf | NegInf, NegInf => PosInf
  | PosInf, NegInf | NegInf, PosInf => NegInf
  end.

Definition ndiv (a b : number) : number :=
  match a, b with
  | NaN, _ | _, NaN => NaN
  | Num x, Num y => if Qeq_bool y 0 then inf_of_sign x else Num (x / y)
  | Num _, _ => Num 0
  | _, Num y => if Qltb y 0 then nneg a else a
  | _, _ => NaN
  end.

Definition nabs (a : number) : number :=
  match a with
  | Num x => Num (Qabs x)
  | NaN => NaN
  | _ => PosInf
  end.

(** [a < b]: false as soon as one side is [NaN]. *)
Definition nlt (a b : number) : bool :=
  match a, b with
  | NaN, _ | _, NaN => false
  | Num x, Num y => Qltb x y
  | NegInf, NegInf => false
  | NegInf, _ => true
  | _, PosInf => match a with PosInf => false | _ => true end
  | _, _ => false
  end.

Definition isFinite (a : number) : bool :=
  match a with Num _ => true | _ => false end.

Infix "+" := nadd : js_scope.
Infix "-" := nsub : js_scope.
Infix "*" := nmul : js_scope.
Infix "/" := ndiv : js_scope.
Infix "<" := nlt : js_scope.

(** Equality of numbers up to the representation of the rational. *)
Definition num_eq (a b : number) : Prop :=
  match a, b with
  | Num x, Num y => x == y
  | NaN, NaN | PosInf, PosInf | NegInf, NegInf => True
  | _, _ => False
  end.

(** ** Rounding to binary64

    The result of an arithmetic operation of JavaScript is the binary64
    number nearest to the exact result. *)

Definition pow2 (e : Z) : Q := 2 ^ e.

(** The floor of the binary logarithm of a positive rational. *)
Definition ilog2 (a : Q) : Z :=
  let k := (Z.log2 (Qnum a) - Z.log2 (Zpos (Qden a)))%Z in
  if Qle_bool (pow2 k) a then k else (k - 1)%Z.

(** Rounding to the nearest integer, a tie to the even one. *)
Definition round_half_even (x : Q) : Z :=
  let f := Qfloor x in
  match Qcompare (x - inject_Z f) (1 # 2) with
  | Lt => f
  | Gt => (f + 1)%Z
  | Eq => if Z.even f then f else (f + 1)%Z
  end.

(** The binary64 number nearest to a rational (round to nearest, ties to
    even): 53 bits of significand, exponents down to -1074, overflow from
    2^1024 on. *)
Definition binary64 (q : Q) : number :=
  if Qeq_bool q 0 then Num 0
  else
    let a := Qabs q in
    let e := Z.max (ilog2 a - 52) (-1074) in
    let m := round_half_even (a / pow2 e) in
    let r := inject_Z m * pow2 e in
    if Qle_bool (pow2 1024) r then (if Qltb q 0 then NegInf else PosInf)
    else Num (Qred (if Qltb q 0 then - r else r)).

Definition round64 (a : number) : number :=
  match a with
  | Num q => binary64 q
  | _ => a
  end.

(** ** Strings

    A [string] stands for a JavaScript string whose code units are all
    below 128.  [toUpperCase] is [String.prototype.toUpperCase] on such a
    string: only the letters a-z move, and the length is kept.  JavaScript
    also maps code units from 128 on and may lengthen the string (one
    sharp s becomes two S); what is proved through [toUpperCase] is
    stated for strings that are [ascii_only]. *)

Fixpoint ascii_only (s : string) : bool :=
  match s with
  | EmptyString => true
  | String c r => (nat_of_ascii c <? 128)%nat && ascii_only r
  end.

Definition upper_ascii (c : ascii) : ascii :=
  let n := nat_of_ascii c in
  if ((97 <=? n) && (n <=? 122))%nat then ascii_of_nat (n - 32) else c.

Fixpoint toUpperCase (s : string) : string :=
  match s with
  | EmptyString => EmptyString
  | String c r => String (upper_ascii c) (toUpperCase r)
  end.

(** The code unit of a character, as a number. *)
Definition code_of (c : ascii) : number := Num (inject_Z (Z.of_nat (nat_of_ascii c))).

(** [s.charCodeAt(i)]: the code unit, [NaN] past the end. *)
Definition charCodeAt (s : string) (i : nat) : number :=
  match String.get i s with
  | Some c => code_of c
  | None => NaN
  end.

Definition is_digit (c : ascii) : bool :=
  let n := nat_of_ascii c in ((48 <=? n) && (n <=? 57))%nat.

(** [parseInt] of a string of one character: a decimal digit gives its value,
    anything else [NaN]. *)
Definition parseInt_char (c : ascii) : number :=
  if is_digit c then Num (inject_Z (Z.of_nat (nat_of_ascii c - 48))) else NaN.

(** [parseInt(s[i])]; past the end [s[i]] is [undefined], which parses to [NaN]. *)
Definition parseInt_at (s : string) (i : nat) : number :=
  match String.get i s with
  | Some c => parseInt_char c
  | None => NaN
  end.

(** ** GridLocator: [gridToLatLon] *)

Record LatLon : Type := mkLatLon { lat : number; lon : number }.

Definition gridToLatLon (grid : string) : option LatLon :=
  if (String.length grid =? 0)%nat || (String.length grid <? 4)%nat then None
  else
    let grid := toUpperCase grid in
    let lon := ((charCodeAt grid 0 - Num 65) * Num 20 - Num 180)%js in
    let lat := ((charCodeAt grid 1 - Num 65) * Num 10 - Num 90)%js in
    let lon2 := (parseInt_at grid 2 * Num 2)%js in
    let lat2 := parseInt_at grid 3 in
    let longitude := (lon + lon2 + Num 1)%js in
    let latitude := (lat + lat2 + Num 0.5)%js in
    if (6 <=? String.length grid)%nat then
      let lon3 := ((charCodeAt grid 4 - Num 65) * (Num 2 / Num 24))%js in
      let lat3 := ((charCodeAt grid 5 - Num 65) * (Num 1 / Num 24))%js in
      let longitude := (lon + lon2 + lon3 + (Num 1 / Num 24))%js in
      let latitude := (lat + lat2 + lat3 + (Num 0.5 / Num 24))%js in
      Some (mkLatLon latitude longitude)
    else Some (mkLatLon latitude longitude).

(** ** SignalClassifier: [getSNRColor] and [getMarkerSize] *)

Definition getSNRColor (snr : option Q) : string :=
  match snr with
  | None => "#888888"
  | Some snr =>
      if Qltb snr 0 then "#ff3333"
      else if Qltb snr 10 then "#ff9933"
      else if Qltb snr 20 then "#ffcc33"
      else if Qltb snr 30 then "#99ff33"
      else "#33ff33"
  end.

Definition getMarkerSize (snr : option Q) : Z :=
  match snr with
  | None => 6
  | Some snr =>
      if Qltb snr 0 then 6
      else if Qltb snr 10 then 8
      else if Qltb snr 20 then 10
      else if Qltb snr 30 then 12
      else 14
  end%Z.

(** ** BandClassifier: [freqToBand] *)

Definition Qgeb (x y : Q) : bool := Qle_bool y x.

Definition freqToBand (freq : Q) : string :=
  let freq := freq / 1000 in
  if Qgeb freq 1.8 && Qltb freq 2.0 then "160m"
  else if Qgeb freq 3.5 && Qltb freq 4.0 then "80m"
  else if Qgeb freq 5.3 && Qltb freq 5.4 then "60m"
  else if Qgeb freq 7.0 && Qltb freq 7.3 then "40m"
  else if Qgeb freq 10.1 && Qltb freq 10.15 then "30m"
  else if Qgeb freq 14.0 && Qltb freq 14.35 then "20m"
  else if Qgeb freq 18.068 && Qltb freq 18.168 then "17m"
  else if Qgeb freq 21.0 && Qltb freq 21.45 then "15m"
  else if Qgeb freq 24.89 && Qltb freq 24.99 then "12m"
  else if Qgeb freq 28.0 && Qltb freq 29.7 then "10m"
  else if Qgeb freq 50.0 && Qltb freq 54.0 then "6m"
  else "Other".

(** ** GreatCirclePathGenerator: [getGreatCirclePath] *)

(** The global [Math] object.  Its functions are transcendental and stay
    uninterpreted: an instance supplies them. *)
Class MathObj : Type := {
  Math_sin : number -> number;
  Math_cos : number -> number;
  Math_acos : number -> number;
  Math_sqrt : number -> number;
  Math_atan2 : number -> number -> number;
  Math_PI : number
}.

Definition Point : Type := (number * number)%type.

Definition of_nat (n : nat) : number := Num (inject_Z (Z.of_nat n)).

Section GreatCircle.
Context `{MathObj}.

(** One turn of the loop of lines 100-115: the interpolant of index [i]. *)
Definition interpolant (lat1Rad lon1Rad lat2Rad lon2Rad d : number)
    (numPoints i : nat) : Point :=
  let f := (of_nat i / of_nat numPoints)%js in
  let A := (Math_sin ((Num 1 - f) * d) / Math_sin d)%js in
  let B := (Math_sin (f * d) / Math_sin d)%js in
  let x := (A * Math_cos lat1Rad * Math_cos lon1Rad +
            B * Math_cos lat2Rad * Math_cos lon2Rad)%js in
  let y := (A * Math_cos lat1Rad * Math_sin lon1Rad +
            B * Math_cos lat2Rad * Math_sin lon2Rad)%js in
  let z := (A * Math_sin lat1Rad + B * Math_sin lat2Rad)%js in
  let lat := (Math_atan2 z (Math_sqrt (x * x + y * y)) * Num 180 / Math_PI)%js in
  let lon := (Math_atan2 y x * Num 180 / Math_PI)%js in
  (lat, lon).

(** Lines 85-117: the spherical interpolation. *)
Definition interpolation (lat1 lon1 lat2 lon2 : number) (numPoints : nat)
    : list Point :=
  let lat1Rad := (lat1 * Math_PI / Num 180)%js in
  let lon1Rad := (lon1 * Math_PI / Num 180)%js in
  let lat2Rad := (lat2 * Math_PI / Num 180)%js in
  let lon2Rad := (lon2 * Math_PI / Num 180)%js in
  let d := Math_acos
             (Math_sin lat1Rad * Math_sin lat2Rad +
              Math_cos lat1Rad * Math_cos lat2Rad * Math_cos (lon2Rad - lon1Rad))%js in
  List.map (interpolant lat1Rad lon1Rad lat2Rad lon2Rad d numPoints)
           (List.seq 0 (S numPoints)).

Definition getGreatCirclePath (lat1 lon1 lat2 lon2 : number) (numPoints : nat)
    : list Point :=
  if negb (isFinite lat1) || negb (isFinite lon1)
     || negb (isFinite lat2) || negb (isFinite lon2)
  then [(lat1, lon1); (lat2, lon2)]
  else
    let deltaLat := nabs (round64 (lat2 - lat1)%js) in
    let deltaLon := nabs (round64 (lon2 - lon1)%js) in
    if (deltaLat < Num 0.5)%js && (deltaLon < Num 0.5)%js
    then [(lat1, lon1); (lat2, lon2)]
    else interpolation lat1 lon1 lat2 lon2 numPoints.
End GreatCircle.

(** A [Math] object that answers [NaN] everywhere, to run the model on
    inputs that do not reach the interpolation. *)
Definition no_math : MathObj :=
  {| Math_sin := fun _ => NaN;
     Math_cos := fun _ => NaN;
     Math_acos := fun _ => NaN;
     Math_sqrt := fun _ => NaN;
     Math_atan2 := fun _ _ => NaN;
     Math_PI := NaN |}.

(** ** Spots, as the feed delivers them

    Every logical attribute comes under two spellings. *)

(** The name of the reporter: a string, [null], or nothing at all
    ([undefined]).  The [Set] of line 190 tells the three apart. *)
Inductive jsstring : Type :=
| Undefined
| Null
| Str (s : string).

#[global] Instance jsstring_eq_dec : EqDecision jsstring.
Proof. solve_decision. Defined.

#[global] Instance jsstring_countable : Countable jsstring.
Proof.
  refine (inj_countable'
            (fun v => match v with
                      | Undefined => None
                      | Null => Some None
                      | Str s => Some (Some s)
                      end)
            (fun o => match o with
                      | None => Undefined
                      | Some None => Null
                      | Some (Some s) => Str s
                      end) _).
  now intros [].
Defined.

(** The time of a spot, as the field holds it: nothing, [null], a number
    of milliseconds, or a string together with the time value that
    [Date.parse] gives for it ([None] when it gives [NaN]). *)
Inductive jstime : Type :=
| TUndefined
| TNull
| TNumber (ms : Q)
| TString (s : string) (parsed : option Z).

Record Spot : Type := mkSpot {
  snr : option Q;
  db : option Q;
  callsign : jsstring;
  de : jsstring;
  grid : option string;
  de_grid : option string;
  frequency : option Q;
  freq : option Q;
  timestamp : jstime;
  time : jstime
}.

(** [a || b] on values that are numbers or missing: [0] is falsy. *)
Definition truthy_num (a : option Q) : bool :=
  match a with Some q => negb (Qeq_bool q 0) | None => false end.
Definition or_num (a b : option Q) : option Q := if truthy_num a then a else b.

(** [a || 0] where [a] is a number or missing. *)
Definition or_zero (a : option Q) : Q :=
  match a with
  | Some q => if Qeq_bool q 0 then 0 else q
  | None => 0
  end.

(** [a || b] on values that are strings or missing: the empty string is falsy. *)
Definition truthy_str (a : option string) : bool :=
  match a with Some s => negb (String.eqb s "") | None => false end.
Definition or_str (a b : option string) : option string :=
  if truthy_str a then a else b.

(** [a || b] on the names of the reporter. *)
Definition truthy_jsstring (a : jsstring) : bool :=
  match a with
  | Str s => negb (String.eqb s "")
  | Undefined | Null => false
  end.
Definition or_jsstring (a b : jsstring) : jsstring := if truthy_jsstring a then a else b.

(** [a || b] on the raw time fields: the number 0 and the empty string are
    falsy, every other number or string is truthy, whatever it parses to. *)
Definition truthy_time (a : jstime) : bool :=
  match a with
  | TUndefined | TNull => false
  | TNumber ms => negb (Qeq_bool ms 0)
  | TString s _ => negb (String.eqb s "")
  end.
Definition or_time (a b : jstime) : jstime := if truthy_time a then a else b.

(** [new Date(v).getTime()], [None] for [NaN]: [undefined] gives an invalid
    date, [null] the epoch, a number its integer part when it is within
    8.64e15 milliseconds of the epoch, a string what [Date.parse] gives. *)
Definition Date_getTime (v : jstime) : option Z :=
  match v with
  | TUndefined => None
  | TNull => Some 0%Z
  | TNumber ms =>
      if Qle_bool (Qabs ms) 8640000000000000
      then Some (Z.quot (Qnum ms) (Zpos (Qden ms)))
      else None
  | TString _ parsed => parsed
  end.

(** ** SpotFeed: the statistics of a refresh (lines 185-198) *)

(** A JavaScript value that is a number or a string. *)
Inductive jsval : Type :=
| VNum (q : Q)
| VStr (s : string).

Definition decimal (n : Z) : string := NilZero.string_of_uint (N.to_uint (Z.to_N n)).

(** [x.toFixed(1)] for a finite [x] (below 10^21, from where on JavaScript
    writes an exponent): sign, then the integer [n] closest to [10 |x|] (the
    larger one on a tie) written with one digit after the point. *)
Definition toFixed1 (x : Q) : string :=
  let n := Qfloor (Qabs x * 10 + (1 # 2)) in
  ((if Qltb x 0 then "-" else "") ++ decimal (n / 10) ++ "." ++ decimal (n mod 10))%string.

(** [x.toFixed(1)] *)
Definition toFixed (x : number) : string :=
  match x with
  | Num q => toFixed1 q
  | NaN => "NaN"
  | PosInf => "Infinity"
  | NegInf => "-Infinity"
  end.

(** [validSNRs.reduce((a, b) => a + b, 0)]: every sum is rounded. *)
Definition reduce_sum (values : list Q) : number :=
  fold_left (fun a b => round64 (a + Num b)%js) values (Num 0).

Record Stats : Type := mkStats {
  total : nat;
  skimmers : nat;
  avgSNR : jsval
}.

(** [recentSpots.map(s => s.snr || s.db).filter(snr => snr !== null && snr !== undefined)] *)
Definition validSNRs (recentSpots : list Spot) : list Q :=
  omap (fun s => or_num (snr s) (db s)) recentSpots.

(** [new Set(recentSpots.map(s => s.callsign || s.de))] *)
Definition uniqueSkimmers (recentSpots : list Spot) : gset jsstring :=
  list_to_set (List.map (fun s => or_jsstring (callsign s) (de s)) recentSpots).

Definition computeStats (recentSpots : list Spot) : Stats :=
  let validSNRs := validSNRs recentSpots in
  let uniqueSkimmers := uniqueSkimmers recentSpots in
  {| total := List.length recentSpots;
     skimmers := size uniqueSkimmers;
     avgSNR :=
       if (0 <? List.length validSNRs)%nat
       then VStr (toFixed (round64 (reduce_sum validSNRs
                                     / of_nat (List.length validSNRs))%js))
       else VNum 0 |}.

(** ** OverlayLifecycleManager: the hook [useLayer]

    A drawable primitive is a Leaflet layer: its [handle] is the identity of
    the object, its [shape] what [L.polyline] or [L.circleMarker] was given
    (the popup text is left out). *)
Inductive Shape : Type :=
| Polyline (points : list Point) (color : string) (weight : Z) (opacity : Q)
    (dashArray : string)
| CircleMarker (center : Point) (radius : Z) (fillColor : string) (color : string)
    (weight : Z) (opacity : Q) (fillOpacity : Q).

Record Layer : Type := mkLayer { handle : nat; shape : Shape }.

(** A line of the console; the interpolated values are left out. *)
Inductive LogEntry : Type :=
| Log (msg : string)
| Error (msg : string) (error : string).

(** What a [fetchRBNSpots] closure captured from its render. *)
Record Closure : Type := mkClosure { c_callsign : option string; c_timeWindow : Z }.

Record State : Type := mkState {
  (* props; [user_callsign] is the prop [callsign] *)
  enabled : bool;
  opacity : Q;
  user_callsign : option string;
  (* useState; [spots_id] and [stats_id] stand for the identity of the
     array and of the object, which the dependency arrays compare *)
  spots : list Spot;
  spots_id : nat;
  selectedBand : string;
  timeWindow : Z;
  minSNR : Q;
  showPaths : bool;
  stats : Stats;
  stats_id : nat;
  (* useRef *)
  layersRef : list Layer;
  controlRef : bool;
  (* the world: the running interval, the retrievals in flight, the
     Leaflet map, [window.deLocation], the console, the next object identity *)
  interval : option Closure;
  inflight : list Closure;
  map_layers : list Layer;
  map_controls : nat;
  window_deLocation : option LatLon;
  console : list LogEntry;
  next_handle : nat
}.

(** Field updates. *)
Definition setProps (e : bool) (o : Q) (c : option string) (st : State) : State :=
  mkState (e) (o) (c) (spots st) (spots_id st) (selectedBand st) (timeWindow st)
    (minSNR st) (showPaths st) (stats st) (stats_id st) (layersRef st) (controlRef st)
    (interval st) (inflight st) (map_layers st) (map_controls st)
    (window_deLocation st) (console st) (next_handle st).

Definition setSpots (v : list Spot) (st : State) : State :=
  mkState (enabled st) (opacity st) (user_callsign st) (v) (S (spots_id st))
    (selectedBand st) (timeWindow st) (minSNR st) (showPaths st) (stats st)
    (stats_id st) (layersRef st) (controlRef st) (interval st) (inflight st)
    (map_layers st) (map_controls st) (window_deLocation st) (console st)
    (next_handle st).

Definition setSelectedBand (v : string) (st : State) : State :=
  mkState (enabled st) (opacity st) (user_callsign st) (spots st) (spots_id st) (v)
    (timeWindow st) (minSNR st) (showPaths st) (stats st) (stats_id st) (layersRef st)
    (controlRef st) (interval st) (inflight st) (map_layers st) (map_controls st)
    (window_deLocation st) (console st) (next_handle st).

Definition setTimeWindow (v : Z) (st : State) : State :=
  mkState (enabled st) (opacity st) (user_callsign st) (spots st) (spots_id st)
    (selectedBand st) (v) (minSNR st) (showPaths st) (stats st) (stats_id st)
    (layersRef st) (controlRef st) (interval st) (inflight st) (map_layers st)
    (map_controls st) (window_deLocation st) (console st) (next_handle st).

Definition setMinSNR (v : Q) (st : State) : State :=
  mkState (enabled st) (opacity st) (user_callsign st) (spots st) (spots_id st)
    (selectedBand st) (timeWindow st) (v) (showPaths st) (stats st) (stats_id st)
    (layersRef st) (controlRef st) (interval st) (inflight st) (map_layers st)
    (map_controls st) (window_deLocation st) (console st) (next_handle st).

Definition setShowPaths (v : bool) (st : State) : State :=
  mkState (enabled st) (opacity st) (user_callsign st) (spots st) (spots_id st)
    (selectedBand st) (timeWindow st) (minSNR st) (v) (stats st) (stats_id st)
    (layersRef st) (controlRef st) (interval st) (inflight st) (map_layers st)
    (map_controls st) (window_deLocation st) (console st) (next_handle st).

Definition setStats (v : Stats) (st : State) : State :=
  mkState (enabled st) (opacity st) (user_callsign st) (spots st) (spots_id st)
    (selectedBand st) (timeWindow st) (minSNR st) (showPaths st) (v) (S (stats_id st))
    (layersRef st) (controlRef st) (interval st) (inflight st) (map_layers st)
    (map_controls st) (window_deLocation st) (console st) (next_handle st).

Definition set_layers (r m : list Layer) (n : nat) (st : State) : State :=
  mkState (enabled st) (opacity st) (user_callsign st) (spots st) (spots_id st)
    (selectedBand st) (timeWindow st) (minSNR st) (showPaths st) (stats st)
    (stats_id st) (r) (controlRef st) (interval st) (inflight st) (m)
    (map_controls st) (window_deLocation st) (console st) (n).

Definition set_control (r : bool) (m : nat) (st : State) : State :=
  mkState (enabled st) (opacity st) (user_callsign st) (spots st) (spots_id st)
    (selectedBand st) (timeWindow st) (minSNR st) (showPaths st) (stats st)
    (stats_id st) (layersRef st) (r) (interval st) (inflight st) (map_layers st) (m)
    (window_deLocation st) (console st) (next_handle st).

Definition set_interval (v : option Closure) (st : State) : State :=
  mkState (enabled st) (opacity st) (user_callsign st) (spots st) (spots_id st)
    (selectedBand st) (timeWindow st) (minSNR st) (showPaths st) (stats st)
    (stats_id st) (layersRef st) (controlRef st) (v) (inflight st) (map_layers st)
    (map_controls st) (window_deLocation st) (console st) (next_handle st).

Definition set_inflight (v : list Closure) (st : State) : State :=
  mkState (enabled st) (opacity st) (user_callsign st) (spots st) (spots_id st)
    (selectedBand st) (timeWindow st) (minSNR st) (showPaths st) (stats st)
    (stats_id st) (layersRef st) (controlRef st) (interval st) (v) (map_layers st)
    (map_controls st) (window_deLocation st) (console st) (next_handle st).

Definition set_deLocation (v : option LatLon) (st : State) : State :=
  mkState (enabled st) (opacity st) (user_callsign st) (spots st) (spots_id st)
    (selectedBand st) (timeWindow st) (minSNR st) (showPaths st) (stats st)
    (stats_id st) (layersRef st) (controlRef st) (interval st) (inflight st)
    (map_layers st) (map_controls st) (v) (console st) (next_handle st).

Definition set_console (v : list LogEntry) (st : State) : State :=
  mkState (enabled st) (opacity st) (user_callsign st) (spots st) (spots_id st)
    (selectedBand st) (timeWindow st) (minSNR st) (showPaths st) (stats st)
    (stats_id st) (layersRef st) (controlRef st) (interval st) (inflight st)
    (map_layers st) (map_controls st) (window_deLocation st) (v) (next_handle st).


Definition console_log (msg : string) (st : State) : State :=
  set_console (console st ++ [Log msg]) st.

Definition console_error (msg e : string) (st : State) : State :=
  set_console (console st ++ [Error msg e]) st.

(** *** [fetchRBNSpots] (lines 150-203)

    The function is asynchronous: [fetchRBNSpots_issue] runs up to the
    [await fetch], [fetchRBNSpots_settle] runs the rest when the retrieval
    settles.  Exceptions of the [try] block are explicit. *)

Inductive Body : Type :=
| BadJson                          (* [response.json()] rejects *)
| JsonNull                         (* the document [null] *)
| JsonOther                        (* any other value that is not an array *)
| JsonArray (data : list Spot).

Inductive Response : Type :=
| Rejected                         (* [fetch] rejects: no response at all *)
| Http (status : Z) (body : Body).

(** [response.ok]: the status is in the range 200-299. *)
Definition response_ok (status : Z) : bool := ((200 <=? status) && (status <=? 299))%Z.

Inductive result (A : Type) : Type :=
| Ok (a : A)
| Throw (e : string).
Arguments Ok {A} a.
Arguments Throw {A} e.

Definition try_catch {A : Type} (body : result A) (handler : string -> result A)
    : result A :=
  match body with
  | Ok a => Ok a
  | Throw e => handler e
  end.

Definition valid_callsign (callsign : option string) : bool :=
  truthy_str callsign && negb (bool_decide (callsign = Some "N0CALL"%string)).

Definition fetchRBNSpots_issue (c : Closure) (st : State) : State :=
  if negb (valid_callsign (c_callsign c))
  then console_log "[RBN] No valid callsign configured" st
  else set_inflight (inflight st ++ [c]) (console_log "[RBN] Fetching spots" st).

(** The time window filter of lines 178-181. *)
Definition is_recent (cutoff : Z) (spot : Spot) : bool :=
  match Date_getTime (or_time (timestamp spot) (time spot)) with
  | Some spotTime => (cutoff <? spotTime)%Z
  | None => false
  end.

(** The [try] block after the [await fetch]. *)
Definition fetchRBNSpots_try (c : Closure) (now : Z) (response : Response)
    (st : State) : result State :=
  match response with
  | Rejected => Throw "TypeError: Failed to fetch"
  | Http status body =>
      if negb (response_ok status) then Throw "Error: RBN API error"
      else
        match body with
        | BadJson => Throw "SyntaxError"
        | JsonNull => Throw "TypeError"
        | JsonOther => Ok (console_log "[RBN] Received spots" st)
        | JsonArray data =>
            let st := console_log "[RBN] Received spots" st in
            let cutoff := (now - c_timeWindow c * 60 * 1000)%Z in
            let recentSpots := List.filter (is_recent cutoff) data in
            let st := setSpots recentSpots st in
            Ok (setStats (computeStats recentSpots) st)
        end
  end.

Definition fetchRBNSpots_settle (c : Closure) (now : Z) (response : Response)
    (st : State) : result State :=
  try_catch (fetchRBNSpots_try c now response st)
    (fun error => Ok (console_error "[RBN] Error fetching spots:" error st)).

(** *** The redraw pass (lines 220-310) *)

Definition removeLayer (layer : Layer) (on_map : list Layer) : list Layer :=
  List.filter (fun l => negb (handle l =? handle layer)%nat) on_map.

(** [layersRef.current.forEach(layer => map.removeLayer(layer)); layersRef.current = []] *)
Definition clear_layers (st : State) : State :=
  set_layers []
    (fold_left (fun on_map layer => removeLayer layer on_map) (layersRef st)
       (map_layers st))
    (next_handle st) st.

(** [layer.addTo(map); layersRef.current.push(layer)] for a new [layer]. *)
Definition addTo (sh : Shape) (st : State) : State :=
  let layer := mkLayer (next_handle st) sh in
  set_layers (layersRef st ++ [layer]) (map_layers st ++ [layer])
    (S (next_handle st)) st.

(** [spot.snr || spot.db || 0] *)
Definition snr_of (spot : Spot) : Q := or_zero (or_num (snr spot) (db spot)).

(** [spot.frequency || spot.freq || 0] *)
Definition freq_of (spot : Spot) : Q := or_zero (or_num (frequency spot) (freq spot)).

(** The predicate of [spots.filter] (lines 237-245). *)
Definition keep_spot (selectedBand : string) (minSNR : Q) (spot : Spot) : bool :=
  let band := freqToBand (freq_of spot) in
  let snr := snr_of spot in
  if negb (String.eqb selectedBand "All") && negb (String.eqb band selectedBand)
  then false
  else if Qltb snr minSNR then false
  else true.

Definition default_deLocation : LatLon := mkLatLon (Num 43.6785) (Num (-79.2935)).

Section Lifecycle.
Context `{MathObj}.

(** The body of [filteredSpots.forEach] (lines 250-308). *)
Definition render_spot (deLocation : LatLon) (st : State) (spot : Spot) : State :=
  let skimmerGrid := or_str (grid spot) (de_grid spot) in
  if negb (truthy_str skimmerGrid) then st
  else
    match gridToLatLon (default EmptyString skimmerGrid) with
    | None => st
    | Some skimmerLoc =>
        let snr := snr_of spot in
        let st :=
          if showPaths st then
            let pathPoints :=
              getGreatCirclePath (lat deLocation) (lon deLocation)
                (lat skimmerLoc) (lon skimmerLoc) 30 in
            addTo (Polyline pathPoints (getSNRColor (Some snr)) 2
                     (opacity st * 0.6) "5, 5") st
          else st in
        let markerSize := getMarkerSize (Some snr) in
        let markerColor := getSNRColor (Some snr) in
        addTo (CircleMarker (lat skimmerLoc, lon skimmerLoc) markerSize markerColor
                 "#ffffff" 2 (opacity st) (opacity st * 0.8)) st
    end.

(** The second effect, [Render markers and paths]. *)
Definition render_effect (st : State) : State :=
  if negb (enabled st) then st
  else
    let st := clear_layers st in
    if (List.length (spots st) =? 0)%nat then st
    else
      let deLocation := default default_deLocation (window_deLocation st) in
      let filteredSpots :=
        List.filter (keep_spot (selectedBand st) (minSNR st)) (spots st) in
      let st := console_log "[RBN] Rendering spots" st in
      fold_left (render_spot deLocation) filteredSpots st.

(** *** The other effects *)

(** The first effect, [Fetch data on mount and set interval], and its cleanup. *)
Definition poll_effect (st : State) : State :=
  if enabled st && valid_callsign (user_callsign st) then
    let fetchRBNSpots := mkClosure (user_callsign st) (timeWindow st) in
    set_interval (Some fetchRBNSpots) (fetchRBNSpots_issue fetchRBNSpots st)
  else st.

Definition poll_cleanup (st : State) : State := set_interval None st.

(** The third effect, [Create control panel], and its cleanup. *)
Definition control_effect (st : State) : State :=
  if negb (enabled st) then st
  else set_control true (S (map_controls st)) st.

Definition removeControl (st : State) : State :=
  if controlRef st then set_control false (Nat.pred (map_controls st)) st else st.

(** The fourth effect, [Cleanup on disable]. *)
Definition disable_effect (st : State) : State :=
  if negb (enabled st) then removeControl (clear_layers st) else st.

(** *** React: dependency arrays and re-rendering

    After a render React runs, for every effect one of whose dependencies
    changed, first the cleanups, then the bodies, in the order of the calls
    to [useEffect].  The map is one object for the whole life of the hook,
    so it never changes a dependency array. *)

Definition deps_poll_changed (prev st : State) : bool :=
  negb (Bool.eqb (enabled prev) (enabled st)
        && bool_decide (user_callsign prev = user_callsign st)
        && (timeWindow prev =? timeWindow st)%Z).

Definition deps_render_changed (prev st : State) : bool :=
  negb (Bool.eqb (enabled prev) (enabled st)
        && (spots_id prev =? spots_id st)%nat
        && String.eqb (selectedBand prev) (selectedBand st)
        && Qeq_bool (minSNR prev) (minSNR st)
        && Bool.eqb (showPaths prev) (showPaths st)
        && Qeq_bool (opacity prev) (opacity st)
        && bool_decide (user_callsign prev = user_callsign st)).

Definition deps_control_changed (prev st : State) : bool :=
  negb (Bool.eqb (enabled prev) (enabled st)
        && (stats_id prev =? stats_id st)%nat
        && String.eqb (selectedBand prev) (selectedBand st)
        && (timeWindow prev =? timeWindow st)%Z
        && Qeq_bool (minSNR prev) (minSNR st)
        && Bool.eqb (showPaths prev) (showPaths st)
        && bool_decide (user_callsign prev = user_callsign st)).

Definition deps_disable_changed (prev st : State) : bool :=
  negb (Bool.eqb (enabled prev) (enabled st)).

Definition when (b : bool) (f : State -> State) (st : State) : State :=
  if b then f st else st.

(** The effects of the render that takes the hook from [prev] to [st]. *)
Definition rerender (prev st : State) : State :=
  let p := deps_poll_changed prev st in
  let r := deps_render_changed prev st in
  let c := deps_control_changed prev st in
  let d := deps_disable_changed prev st in
  let st := when p poll_cleanup st in
  let st := when c removeControl st in
  let st := when p poll_effect st in
  let st := when r render_effect st in
  let st := when c control_effect st in
  when d disable_effect st.

(** The first render: the initial values of [useState] and [useRef], then
    every effect. *)
Definition unmounted (enabled : bool) (opacity : Q) (callsign : option string)
    (deLocation : option LatLon) : State :=
  mkState enabled opacity callsign
    [] 0 "All" 30 (-10) true (mkStats 0 0 (VNum 0)) 0
    [] false
    None [] [] 0 deLocation [] 0.

Definition mount (enabled : bool) (opacity : Q) (callsign : option string)
    (deLocation : option LatLon) : State :=
  disable_effect
    (control_effect
       (render_effect (poll_effect (unmounted enabled opacity callsign deLocation)))).

(** *** The events of the main loop *)
Inductive Event : Type :=
| Props (enabled : bool) (opacity : Q) (callsign : option string)
    (* the dashboard renders the hook again with these props *)
| SelectBand (band : string)            (* [setSelectedBand] *)
| SlideTimeWindow (minutes : Z)         (* [setTimeWindow] *)
| SlideMinSNR (floor : Q)               (* [setMinSNR] *)
| CheckPaths (checked : bool)           (* [setShowPaths] *)
| IntervalFires                         (* the two-minute timer *)
| Settles (i : nat) (now : Z) (response : Response)
    (* the [i]-th retrieval in flight settles at time [now] *)
| DeLocation (deLocation : option LatLon).
    (* the dashboard assigns [window.deLocation]: no render follows *)

(** What the main loop leaves when a promise rejects with nobody to catch. *)
Inductive Outcome : Type :=
| Runs (st : State)
| Unhandled (e : string).

Definition step (st : State) (ev : Event) : Outcome :=
  match ev with
  | Props e o c => Runs (rerender st (setProps e o c st))
  | SelectBand band => Runs (rerender st (setSelectedBand band st))
  | SlideTimeWindow minutes => Runs (rerender st (setTimeWindow minutes st))
  | SlideMinSNR floor => Runs (rerender st (setMinSNR floor st))
  | CheckPaths checked => Runs (rerender st (setShowPaths checked st))
  | IntervalFires =>
      match interval st with
      | Some fetchRBNSpots => Runs (fetchRBNSpots_issue fetchRBNSpots st)
      | None => Runs st
      end
  | Settles i now response =>
      match inflight st !! i with
      | Some fetchRBNSpots =>
          let st := set_inflight (delete i (inflight st)) st in
          match fetchRBNSpots_settle fetchRBNSpots now response st with
          | Ok st' => Runs (rerender st st')
          | Throw e => Unhandled e
          end
      | None => Runs st
      end
  | DeLocation deLocation => Runs (set_deLocation deLocation st)
  end.

(** A run of the main loop: the events in order, stopping at an error. *)
Fixpoint run (st : State) (evs : list Event) : Outcome :=
  match evs with
  | [] => Runs st
  | ev :: evs =>
      match step st ev with
      | Runs st' => run st' evs
      | Unhandled e => Unhandled e
      end
  end.

End Lifecycle.

(** * The dashboard: [App]

    Two computations of the component that hosts the overlay: the uptime
    line of the clock effect and the scale of the dashboard. *)

(** [d], [h] and [m] of the clock effect: [Math.floor] of a quotient of
    integers is [Z.div], the remainder [%] takes the sign of the dividend. *)
Definition uptime_d (elapsed : Z) : Z := (elapsed / 86400000)%Z.
Definition uptime_h (elapsed : Z) : Z := (Z.rem elapsed 86400000 / 3600000)%Z.
Definition uptime_m (elapsed : Z) : Z := (Z.rem elapsed 3600000 / 60000)%Z.

(** An integer in a template string. *)
Definition show_int (n : Z) : string :=
  ((if (n <? 0)%Z then "-" else "") ++ decimal (Z.abs n))%string.

Definition uptime_text (elapsed : Z) : string :=
  (show_int (uptime_d elapsed) ++ "d " ++ show_int (uptime_h elapsed) ++ "h "
   ++ show_int (uptime_m elapsed) ++ "m")%string.


(** * The vocabulary of the specification *)

(** ** The band table of the BandClassifier: name, inclusive lower and
    exclusive upper bound in MHz. *)
Definition band_table : list (string * Q * Q) :=
  [ ("160m", 1.8, 2.0); ("80m", 3.5, 4.0); ("60m", 5.3, 5.4); ("40m", 7.0, 7.3);
    ("30m", 10.1, 10.15); ("20m", 14.0, 14.35); ("17m", 18.068, 18.168);
    ("15m", 21.0, 21.45); ("12m", 24.89, 24.99); ("10m", 28.0, 29.7);
    ("6m", 50.0, 54.0) ]%string.

Definition band_name (e : string * Q * Q) : string := e.1.1.

Definition in_band (mhz : Q) (e : string * Q * Q) : Prop :=
  e.1.2 <= mhz /\ mhz < e.2.

(** ** The five tiers of the SignalClassifier, by ascending SNR. *)
Inductive Tier : Type := Weak | Fair | Good | VeryGood | Excellent.

Definition tiers : list Tier := [Weak; Fair; Good; VeryGood; Excellent].

Definition in_tier (t : Tier) (snr : Q) : Prop :=
  match t with
  | Weak => snr < 0
  | Fair => 0 <= snr /\ snr < 10
  | Good => 10 <= snr /\ snr < 20
  | VeryGood => 20 <= snr /\ snr < 30
  | Excellent => 30 <= snr
  end.

Definition tier_color (t : Tier) : string :=
  match t with
  | Weak => "#ff3333"
  | Fair => "#ff9933"
  | Good => "#ffcc33"
  | VeryGood => "#99ff33"
  | Excellent => "#33ff33"
  end.

Definition tier_radius (t : Tier) : Z :=
  match t with
  | Weak => 6
  | Fair => 8
  | Good => 10
  | VeryGood => 12
  | Excellent => 14
  end.

Definition neutral_gray : string := "#888888".

(** ** Maidenhead locators, as the GridLocator section describes them *)

(** The position of a character in an alphabet. *)
Fixpoint index_in (alphabet : string) (c : ascii) : option nat :=
  match alphabet with
  | EmptyString => None
  | String a rest =>
      if Ascii.eqb a c then Some 0%nat else option_map S (index_in rest c)
  end.

(** Letters count from A, in either case: A-R for a field, A-X for a
    sub-square. *)
Definition field_index (c : ascii) : option nat :=
  match index_in "ABCDEFGHIJKLMNOPQR" c with
  | Some i => Some i
  | None => index_in "abcdefghijklmnopqr" c
  end.

Definition subsquare_index (c : ascii) : option nat :=
  match index_in "ABCDEFGHIJKLMNOPQRSTUVWX" c with
  | Some i => Some i
  | None => index_in "abcdefghijklmnopqrstuvwx" c
  end.

Definition digit_index (c : ascii) : option nat := index_in "0123456789" c.

(** The input of claim C2: the first two characters are not both letters of
    A-R, or the third and fourth are not both digits (a missing character is
    neither). *)
Definition malformed (locator : string) : Prop :=
  match locator with
  | String a (String b (String c (String d _))) =>
      field_index a = None \/ field_index b = None
      \/ digit_index c = None \/ digit_index d = None
  | _ => True
  end.

(** A square of the grid: its south-west corner and its extent in degrees. *)
Record Square : Type := mkSquare {
  sw_lat : Q;
  sw_lon : Q;
  lat_span : Q;
  lon_span : Q
}.

Definition nat_Q (n : nat) : Q := inject_Z (Z.of_nat n).

(** Fields of 20 by 10 degrees from (-180, -90), squares of 2 by 1 degrees. *)
Definition square4 (a b c d : ascii) : option Square :=
  match field_index a, field_index b, digit_index c, digit_index d with
  | Some i, Some j, Some m, Some n =>
      Some (mkSquare (-90 + 10 * nat_Q j + 1 * nat_Q n)
                     (-180 + 20 * nat_Q i + 2 * nat_Q m) 1 2)
  | _, _, _, _ => None
  end.

(** The square of a valid locator of four characters, the sub-square (5
    minutes of longitude by 2.5 of latitude) of one of six; [None] on any
    other string. *)
Definition locator_square (locator : string) : option Square :=
  match locator with
  | String a (String b (String c (String d EmptyString))) => square4 a b c d
  | String a (String b (String c (String d (String e (String f EmptyString))))) =>
      match square4 a b c d, subsquare_index e, subsquare_index f with
      | Some sq, Some k, Some l =>
          Some (mkSquare (sw_lat sq + (1 / 24) * nat_Q l)
                         (sw_lon sq + (2 / 24) * nat_Q k) (1 / 24) (2 / 24))
      | _, _, _ => None
      end
  | _ => None
  end.

(** The centre of a square. *)
Definition centre_lat (sq : Square) : Q := sw_lat sq + lat_span sq / 2.
Definition centre_lon (sq : Square) : Q := sw_lon sq + lon_span sq / 2.

(** A coordinate lies in a square (borders included). *)
Definition in_square (sq : Square) (la lo : Q) : Prop :=
  sw_lat sq <= la /\ la <= sw_lat sq + lat_span sq
  /\ sw_lon sq <= lo /\ lo <= sw_lon sq + lon_span sq.

(** [c] is the finite coordinate ([la], [lo]). *)
Definition is_coord (c : LatLon) (la lo : Q) : Prop :=
  num_eq (lat c) (Num la) /\ num_eq (lon c) (Num lo).

(** Two coordinates are near each other: less than a degree apart in
    latitude and in longitude. *)
Definition near (la lo la' lo' : Q) : Prop :=
  Qabs (la - la') < 1 /\ Qabs (lo - lo') < 1.

(** A square lies inside another one. *)
Definition square_within (inner outer : Square) : Prop :=
  sw_lat outer <= sw_lat inner
  /\ sw_lat inner + lat_span inner <= sw_lat outer + lat_span outer
  /\ sw_lon outer <= sw_lon inner
  /\ sw_lon inner + lon_span inner <= sw_lon outer + lon_span outer.

(** ** The statistics, as the SpotFeed section describes them *)

(** The SNR a spot carries, under either spelling of the field. *)
Definition present_snr (s : Spot) : option Q :=
  match snr s with
  | Some q => Some q
  | None => db s
  end.

(** The reporter of a spot, under either spelling of the field. *)
Definition reporter (s : Spot) : jsstring := or_jsstring (callsign s) (de s).

Definition Qsum (l : list Q) : Q := fold_right Qplus 0 l.

Definition mean (l : list Q) : Q := Qsum l / nat_Q (List.length l).

Definition spec_stats (retained : list Spot) : Stats :=
  {| total := List.length retained;
     skimmers := List.length (remove_dups (List.map reporter retained));
     avgSNR :=
       match omap present_snr retained with
       | [] => VNum 0
       | values => VStr (toFixed1 (mean values))
       end |}.

(** An SNR in whole decibels, a million at most either way. *)
Definition whole_dB (q : Q) : Prop :=
  exists z : Z, q == inject_Z z /\ (Z.abs z <= 1000000)%Z.

Definition heard (snr : option Q) (callsign : string) : Spot :=
  mkSpot snr None (Str callsign) Undefined None None None None TUndefined TUndefined.

(** A feed of two spots, one of them at 0 dB. *)
Definition zero_snr_feed : list Spot := [heard (Some 0) "W1AW"; heard (Some 10) "K1TTT"].

(** ** The lifecycle, as the specification speaks of it *)

(** A retrieval fails: no response, a status outside 200-299, or a body
    that does not parse. *)
Definition retrieval_fails (response : Response) : Prop :=
  match response with
  | Rejected => True
  | Http status body => response_ok status = false \/ body = BadJson
  end.

(** The states of the hook: those a run of the main loop reaches from a
    first render. *)
Definition reachable `{MathObj} (st : State) : Prop :=
  exists enabled opacity callsign deLocation evs,
    run (mount enabled opacity callsign deLocation) evs = Runs st.

(** Every primitive on the drawing surface is tracked, and a disabled
    overlay tracks none. *)
Definition tracked (st : State) : Prop := map_layers st = layersRef st.

Definition consistent (st : State) : Prop :=
  tracked st /\ (enabled st = false -> layersRef st = []).




(** A spot without SNR, heard in FN20. *)
Definition silent_spot : Spot :=
  mkSpot None None (Str "W1AW") Undefined (Some "FN20"%string) None
    (Some 14025) None (TNumber 1000) TUndefined.

(** What the effects never touch: the props and the values of [useState]. *)
Definition hook_values (st : State) :=
  (enabled st, opacity st, user_callsign st, spots st, spots_id st, selectedBand st,
   timeWindow st, minSNR st, showPaths st, stats st, stats_id st, window_deLocation st).

Definition same_deps (prev st : State) : Prop :=
  enabled prev = enabled st /\ opacity prev = opacity st
  /\ user_callsign prev = user_callsign st /\ spots_id prev = spots_id st
  /\ selectedBand prev = selectedBand st /\ timeWindow prev = timeWindow st
  /\ minSNR prev = minSNR st /\ showPaths prev = showPaths st
  /\ stats_id prev = stats_id st.

(** The effects that do not draw. *)
Definition keeps_layers (f : State -> State) : Prop :=
  forall st, layersRef (f st) = layersRef st /\ map_layers (f st) = map_layers st
             /\ hook_values (f st) = hook_values st.

(** The hook of W1AW, disabled while its first retrieval is in flight. *)
Definition disabled_in_flight : State :=
  @rerender no_math (@mount no_math true 0.7 (Some "W1AW"%string) None)
    (setProps false 0.7 (Some "W1AW"%string)
       (@mount no_math true 0.7 (Some "W1AW"%string) None)).

(** The polling side and the control side of the world. *)
Definition polling_values (st : State) := (interval st, inflight st).
Definition control_values (st : State) := (controlRef st, map_controls st).

(** The interval runs exactly while the overlay is enabled with a valid
    callsign, and it holds the closure of the current render. *)
Definition polling (st : State) : Prop :=
  interval st
  = if enabled st && valid_callsign (user_callsign st)
    then Some (mkClosure (user_callsign st) (timeWindow st))
    else None.


(** The primitives of one spot: none without a locator of four characters,
    else a marker, after a path when paths are shown. *)
Definition spot_shapes `{MathObj} (deLocation : LatLon) (showPaths : bool) (opacity : Q)
    (spot : Spot) : list Shape :=
  let skimmerGrid := or_str (grid spot) (de_grid spot) in
  if truthy_str skimmerGrid then
    match gridToLatLon (default EmptyString skimmerGrid) with
    | None => []
    | Some skimmerLoc =>
        (if showPaths then
           [Polyline
              (getGreatCirclePath (lat deLocation) (lon deLocation)
                 (lat skimmerLoc) (lon skimmerLoc) 30)
              (getSNRColor (Some (snr_of spot))) 2 (opacity * 0.6) "5, 5"]
         else [])
        ++ [CircleMarker (lat skimmerLoc, lon skimmerLoc)
              (getMarkerSize (Some (snr_of spot))) (getSNRColor (Some (snr_of spot)))
              "#ffffff" 2 opacity (opacity * 0.8)]
    end
  else [].

(** The primitives of the eligible spots of the retained set, in the order
    of the feed; none while the overlay is disabled. *)
Definition expected_shapes `{MathObj} (st : State) : list Shape :=
  if enabled st then
    flat_map
      (spot_shapes (default default_deLocation (window_deLocation st)) (showPaths st)
         (opacity st))
      (List.filter (keep_spot (selectedBand st) (minSNR st)) (spots st))
  else [].

(** The hook of W1AW, enabled, once the first retrieval has brought
    [silent_spot]. *)
Definition showing_one_spot : State :=
  match @run no_math (@mount no_math true 0.7 (Some "W1AW"%string) None)
          [Settles 0 2000 (Http 200 (JsonArray [silent_spot]))] with
  | Runs st => st
  | Unhandled _ => @mount no_math true 0.7 (Some "W1AW"%string) None
  end.

(** A spot whose locator is too short to resolve. *)
Definition unlocated_spot : Spot :=
  mkSpot (Some 12) None (Str "K1TTT") Undefined (Some "FN"%string) None
    (Some 7010) None (TNumber 1000) TUndefined.

(** * Properties *)

(** ** Comparisons *)

Lemma Qltb_spec (x y : Q) : reflect (x < y) (Qltb x y).
Proof.
  unfold Qltb. destruct (Qle_bool y x) eqn:E; constructor.
  - apply Qle_bool_iff in E. now apply Qle_not_lt.
  - apply Qnot_le_lt. intros Hle. apply Qle_bool_iff in Hle. congruence.
Qed.

(** ** Rounding to binary64 *)

Lemma pow2_pos (e : Z) : 0 < pow2 e.
Proof. apply Qpower_0_lt. reflexivity. Qed.

Lemma pow2_add (x y : Z) : pow2 (x + y) == pow2 x * pow2 y.
Proof. apply Qpower_plus. discriminate. Qed.

Lemma pow2_le (x y : Z) : (x <= y)%Z -> pow2 x <= pow2 y.
Proof. intros H. apply Qpower_le_compat_l; [exact H | discriminate]. Qed.

Lemma pow2_Z (x : Z) : (0 <= x)%Z -> pow2 x == inject_Z (2 ^ x).
Proof. intros H. unfold pow2. now rewrite Zpower_Qpower. Qed.

(** [ilog2 a] is the exponent of the binade of [a]. *)
Lemma ilog2_spec (a : Q) : 0 < a -> pow2 (ilog2 a) <= a /\ a < pow2 (ilog2 a + 1).
Proof.
  intros Ha. destruct a as [n d]. unfold ilog2. cbn [Qnum Qden].
  assert (Hn : (0 < n)%Z) by (unfold Qlt in Ha; cbn in Ha; lia).
  set (ln := Z.log2 n). set (ld := Z.log2 (Zpos d)).
  destruct (Z.log2_spec n Hn) as [Hn1 Hn2]. fold ln in Hn1, Hn2.
  destruct (Z.log2_spec (Zpos d) ltac:(lia)) as [Hd1 Hd2]. fold ld in Hd1, Hd2.
  assert (Hln : (0 <= ln)%Z) by apply Z.log2_nonneg.
  assert (Hld : (0 <= ld)%Z) by apply Z.log2_nonneg.
  assert (Ea : (n # d) * inject_Z (Zpos d) == inject_Z n).
  { unfold Qeq, Qmult, inject_Z. cbn. lia. }
  assert (HD : 0 < inject_Z (Zpos d)) by reflexivity.
  rewrite Zle_Qle in Hn1, Hd1. rewrite Zlt_Qlt in Hn2, Hd2.
  rewrite <- pow2_Z in Hn1, Hn2, Hd1, Hd2 by lia.
  rewrite <- Z.add_1_r in Hn2, Hd2.
  destruct (Qle_bool (pow2 (ln - ld)) (n # d)) eqn:Et.
  - apply Qle_bool_iff in Et. split; [exact Et |].
    assert (Ep : pow2 (ln + 1) == pow2 (ln - ld + 1) * pow2 ld).
    { rewrite <- pow2_add. now replace (ln - ld + 1 + ld)%Z with (ln + 1)%Z by lia. }
    pose proof (pow2_pos (ln - ld + 1)) as Hq.
    generalize dependent (pow2 (ln - ld + 1)). generalize dependent (pow2 (ln + 1)).
    generalize dependent (pow2 ld). generalize dependent (inject_Z (Zpos d)).
    generalize dependent (inject_Z n). generalize dependent (n # d).
    intros. nra.
  - assert (Hnt : (n # d) < pow2 (ln - ld)).
    { apply Qnot_le_lt. intros Hle. apply Qle_bool_iff in Hle. congruence. }
    replace (ln - ld - 1 + 1)%Z with (ln - ld)%Z by lia. split; [| exact Hnt].
    assert (Ep : pow2 ln == pow2 (ln - ld - 1) * pow2 (ld + 1)).
    { rewrite <- pow2_add. now replace (ln - ld - 1 + (ld + 1))%Z with ln by lia. }
    pose proof (pow2_pos (ln - ld - 1)) as Hq.
    generalize dependent (pow2 (ln - ld - 1)). generalize dependent (pow2 ln).
    generalize dependent (pow2 (ld + 1)). generalize dependent (inject_Z (Zpos d)).
    generalize dependent (inject_Z n). generalize dependent (n # d).
    intros. nra.
Qed.

Lemma round_half_even_floor (x : Q) : (Qfloor x <= round_half_even x)%Z.
Proof.
  unfold round_half_even. destruct (Qcompare _ _); [destruct (Z.even _) | |]; lia.
Qed.

(** Rounding does not take a number from 1/2 on below 1/2. *)
Lemma binary64_half (q : Q) :
  0.5 <= Qabs q -> nlt (nabs (binary64 q)) (Num 0.5) = false.
Proof.
  intros Hq5. assert (Hq : 1 # 2 <= Qabs q) by lra. unfold binary64.
  destruct (Qeq_bool q 0) eqn:E0.
  { apply Qeq_bool_iff in E0. rewrite E0 in Hq. exfalso. now apply Hq. }
  destruct (ilog2_spec (Qabs q)) as [Hlo Hhi]; [lra |].
  set (L := ilog2 (Qabs q)) in *.
  assert (HL : (-1 <= L)%Z).
  { assert (Hlt : pow2 (-1) < pow2 (L + 1)).
    { apply Qle_lt_trans with (Qabs q); [exact Hq | exact Hhi]. }
    apply Qpower_lt_compat_l_inv in Hlt; [lia | reflexivity]. }
  rewrite Z.max_l by lia.
  set (m := round_half_even (Qabs q / pow2 (L - 52))).
  assert (Hm : inject_Z (2 ^ 52) <= inject_Z m).
  { rewrite <- Zle_Qle. etransitivity; [| apply round_half_even_floor].
    rewrite <- (Qfloor_Z (2 ^ 52)). apply Qfloor_resp_le.
    apply Qle_shift_div_l; [apply pow2_pos |].
    rewrite <- pow2_Z by lia. rewrite <- pow2_add.
    now replace (52 + (L - 52))%Z with L by lia. }
  assert (Hr : 1 # 2 <= inject_Z m * pow2 (L - 52)).
  { apply Qle_trans with (pow2 L).
    - change (1 # 2) with (pow2 (-1)). now apply pow2_le.
    - replace L with (52 + (L - 52))%Z at 1 by lia. rewrite pow2_add.
      rewrite pow2_Z by lia. apply Qmult_le_compat_r; [exact Hm |].
      apply Qlt_le_weak, pow2_pos. }
  destruct (Qle_bool (pow2 1024) _); [now destruct (Qltb q 0) |].
  cbn [nabs nlt]. destruct (Qltb_spec (Qabs (Qred (if Qltb q 0 then - (inject_Z m * pow2 (L - 52)) else inject_Z m * pow2 (L - 52)))) 0.5) as [Hlt | _];
    [| reflexivity].
  exfalso. rewrite Qred_correct in Hlt.
  destruct (Qltb q 0); [rewrite Qabs_opp in Hlt |]; rewrite Qabs_pos in Hlt; lra.
Qed.

Lemma round_half_even_below (x : Q) (N : Z) :
  x < inject_Z N - (1 # 2) -> (round_half_even x < N)%Z.
Proof.
  intros Hx. unfold round_half_even.
  pose proof (Qfloor_le x) as Hf.
  assert (Hc : forall k : Z, inject_Z k < inject_Z N -> (k < N)%Z)
    by (intros k; now rewrite <- Zlt_Qlt).
  assert (H1 : inject_Z (Qfloor x + 1) == inject_Z (Qfloor x) + 1)
    by (rewrite inject_Z_plus; reflexivity).
  destruct (Qcompare (x - inject_Z (Qfloor x)) (1 # 2)) eqn:Ec.
  - apply Qeq_alt in Ec.
    assert (Hlt : (Qfloor x + 1 < N)%Z) by (apply Hc; lra).
    destruct (Z.even _); lia.
  - apply Hc. lra.
  - apply Qgt_alt in Ec. apply Hc. lra.
Qed.

(** A number closer to zero than 1/2 - 2^-55 is rounded below 1/2. *)
Lemma binary64_below_half (q : Q) :
  Qabs q < 0.5 - pow2 (-55) -> nlt (nabs (binary64 q)) (Num 0.5) = true.
Proof.
  intros Hq5. assert (Hq : Qabs q < (1 # 2) - pow2 (-55)) by lra. unfold binary64.
  destruct (Qeq_bool q 0) eqn:E0; [reflexivity |].
  assert (Ha : 0 < Qabs q).
  { destruct (Qlt_le_dec 0 (Qabs q)) as [Hp | Hn]; [exact Hp |].
    apply Qabs_Qle_condition in Hn. apply Qeq_bool_neq in E0.
    exfalso. apply E0. lra. }
  destruct (ilog2_spec (Qabs q) Ha) as [Hlo Hhi].
  set (L := ilog2 (Qabs q)) in *.
  assert (H55 : 0 < pow2 (-55)) by apply pow2_pos.
  assert (HL : (L <= -2)%Z).
  { assert (Hlt : pow2 L < pow2 (-1)).
    { apply Qle_lt_trans with (Qabs q); [exact Hlo |]. change (pow2 (-1)) with (1 # 2). lra. }
    apply Qpower_lt_compat_l_inv in Hlt; [lia | reflexivity]. }
  set (e := Z.max (L - 52) (-1074)).
  assert (He : (e <= -54)%Z) by (unfold e; lia).
  set (m := round_half_even (Qabs q / pow2 e)).
  assert (Hm : (m < 2 ^ (-1 - e))%Z).
  { apply round_half_even_below. apply Qlt_shift_div_r; [apply pow2_pos |].
    rewrite <- pow2_Z by lia.
    assert (E1 : pow2 (-1 - e) * pow2 e == 1 # 2).
    { rewrite <- pow2_add. replace (-1 - e + e)%Z with (-1)%Z by lia. reflexivity. }
    assert (E2 : pow2 (-55) == pow2 (-55 - e) * pow2 e).
    { rewrite <- pow2_add. now replace (-55 - e + e)%Z with (-55)%Z by lia. }
    assert (E3 : 1 # 2 <= pow2 (-55 - e)).
    { change (1 # 2) with (pow2 (-1)). apply pow2_le. lia. }
    pose proof (pow2_pos e) as Hpe.
    generalize dependent (pow2 (-1 - e)). generalize dependent (pow2 (-55 - e)).
    generalize dependent (pow2 (-55)). generalize dependent (pow2 e).
    generalize dependent (Qabs q). intros. nra. }
  assert (Hm0 : (0 <= m)%Z).
  { etransitivity; [| apply round_half_even_floor].
    rewrite <- (Qfloor_Z 0). apply Qfloor_resp_le.
    apply Qle_shift_div_l; [apply pow2_pos |]. change (inject_Z 0) with 0. lra. }
  assert (Hr : inject_Z m * pow2 e < 1 # 2).
  { assert (E1 : pow2 (-1 - e) * pow2 e == 1 # 2).
    { rewrite <- pow2_add. replace (-1 - e + e)%Z with (-1)%Z by lia. reflexivity. }
    rewrite <- E1. apply Qmult_lt_compat_r; [apply pow2_pos |].
    rewrite pow2_Z by lia. now rewrite <- Zlt_Qlt. }
  assert (Hr0 : 0 <= inject_Z m * pow2 e).
  { apply Qmult_le_0_compat; [now rewrite Zle_Qle in Hm0 | apply Qlt_le_weak, pow2_pos]. }
  destruct (Qle_bool (pow2 1024) (inject_Z m * pow2 e)) eqn:Eo.
  { exfalso. apply Qle_bool_iff in Eo.
    assert (Hp : pow2 (-1) <= pow2 1024) by (apply pow2_le; lia).
    change (pow2 (-1)) with (1 # 2) in Hp. lra. }
  cbn [nabs nlt].
  destruct (Qltb_spec (Qabs (Qred (if Qltb q 0 then - (inject_Z m * pow2 e) else inject_Z m * pow2 e))) 0.5) as [_ | Hn];
    [reflexivity |].
  exfalso. apply Hn. rewrite Qred_correct.
  destruct (Qltb q 0); [rewrite Qabs_opp |]; rewrite Qabs_pos; lra.
Qed.

(** *** Rounding respects the equality of rationals *)

Lemma ilog2_unique (a : Q) (k : Z) :
  0 < a -> pow2 k <= a -> a < pow2 (k + 1) -> ilog2 a = k.
Proof.
  intros Ha Hlo Hhi. destruct (ilog2_spec a Ha) as [Hlo' Hhi'].
  assert (H1 : pow2 k < pow2 (ilog2 a + 1)) by (eapply Qle_lt_trans; eassumption).
  assert (H2 : pow2 (ilog2 a) < pow2 (k + 1)) by (eapply Qle_lt_trans; eassumption).
  apply Qpower_lt_compat_l_inv in H1; [| reflexivity].
  apply Qpower_lt_compat_l_inv in H2; [| reflexivity]. lia.
Qed.

Lemma ilog2_comp (x y : Q) : x == y -> 0 < x -> ilog2 x = ilog2 y.
Proof.
  intros E Hx. assert (Hy : 0 < y) by now rewrite <- E.
  destruct (ilog2_spec y Hy) as [Hlo Hhi].
  apply ilog2_unique; [exact Hx | now rewrite E | now rewrite E].
Qed.

Lemma round_half_even_comp (x y : Q) : x == y -> round_half_even x = round_half_even y.
Proof.
  intros E. unfold round_half_even.
  assert (Ef : Qfloor x = Qfloor y) by now rewrite E.
  rewrite Ef.
  assert (Ec : Qcompare (x - inject_Z (Qfloor y)) (1 # 2)
               = Qcompare (y - inject_Z (Qfloor y)) (1 # 2)) by now rewrite E.
  now rewrite Ec.
Qed.

Lemma Qabs_pos_iff (q : Q) : ~ q == 0 -> 0 < Qabs q.
Proof.
  intros Hq. destruct (Qlt_le_dec 0 (Qabs q)) as [Hp | Hn]; [exact Hp |].
  apply Qabs_Qle_condition in Hn. exfalso. apply Hq. lra.
Qed.

Lemma binary64_comp (x y : Q) : x == y -> binary64 x = binary64 y.
Proof.
  intros E. unfold binary64.
  assert (E0 : Qeq_bool x 0 = Qeq_bool y 0) by now rewrite E.
  rewrite <- E0. destruct (Qeq_bool x 0) eqn:Ex; [reflexivity |].
  apply Qeq_bool_neq in Ex.
  assert (Ea : Qabs x == Qabs y) by now rewrite E.
  rewrite <- (ilog2_comp (Qabs x) (Qabs y) Ea (Qabs_pos_iff x Ex)).
  set (e := Z.max (ilog2 (Qabs x) - 52) (-1074)).
  assert (Em : round_half_even (Qabs x / pow2 e) = round_half_even (Qabs y / pow2 e))
    by (apply round_half_even_comp; now rewrite Ea).
  rewrite <- Em. set (r := inject_Z (round_half_even (Qabs x / pow2 e)) * pow2 e).
  assert (El : Qltb x 0 = Qltb y 0) by (unfold Qltb; now rewrite E).
  rewrite <- El. reflexivity.
Qed.

Lemma round_half_even_Z (x : Q) (k : Z) : x == inject_Z k -> round_half_even x = k.
Proof.
  intros E. rewrite (round_half_even_comp _ _ E). unfold round_half_even.
  rewrite Qfloor_Z.
  assert (Ec : Qcompare (inject_Z k - inject_Z k) (1 # 2) = Lt).
  { assert (Hlt : inject_Z k - inject_Z k < 1 # 2).
    { assert (Ez : inject_Z k - inject_Z k == 0) by ring. rewrite Ez. reflexivity. }
    now apply Qlt_alt in Hlt. }
  now rewrite Ec.
Qed.

Lemma Qred_inject_Z (n : Z) : Qred (inject_Z n) = inject_Z n.
Proof.
  unfold Qred, inject_Z.
  pose proof (Z.ggcd_gcd n 1) as Hg. pose proof (Z.ggcd_correct_divisors n 1) as Hd.
  destruct (Z.ggcd n 1) as [g [aa bb]]. cbn [fst snd] in *.
  rewrite Z.gcd_1_r in Hg. subst g. destruct Hd as [Ha Hb].
  rewrite Z.mul_1_l in Ha, Hb. subst aa bb. reflexivity.
Qed.

(** An integer below 2^53 is a binary64 number. *)
Lemma binary64_int (q : Q) (n : Z) :
  q == inject_Z n -> (Z.abs n < 2 ^ 53)%Z -> binary64 q = Num (inject_Z n).
Proof.
  intros E Hn. rewrite (binary64_comp _ _ E). clear q E.
  unfold binary64. destruct (Qeq_bool (inject_Z n) 0) eqn:E0.
  { apply Qeq_bool_iff in E0. unfold Qeq, inject_Z in E0. cbn in E0.
    assert (n = 0%Z) by lia. subst n. reflexivity. }
  apply Qeq_bool_neq in E0.
  assert (Hn0 : n <> 0%Z) by (intros ->; now apply E0).
  assert (Ea : Qabs (inject_Z n) = inject_Z (Z.abs n)) by reflexivity.
  rewrite Ea. set (a := Z.abs n).
  assert (Ha1 : (1 <= a)%Z) by (unfold a; lia).
  assert (Hpa : 0 < inject_Z a) by (change 0 with (inject_Z 0); rewrite <- Zlt_Qlt; lia).
  destruct (ilog2_spec (inject_Z a) Hpa) as [Hlo Hhi].
  set (L := ilog2 (inject_Z a)) in *.
  assert (HL0 : (0 <= L)%Z).
  { assert (Hlt : pow2 0 < pow2 (L + 1)).
    { eapply Qle_lt_trans; [| exact Hhi].
      assert (H1 : inject_Z 1 <= inject_Z a) by (rewrite <- Zle_Qle; lia).
      exact H1. }
    pose proof (Qpower_lt_compat_l_inv 2 0 (L + 1) Hlt eq_refl). lia. }
  assert (HL52 : (L <= 52)%Z).
  { assert (Hlt : pow2 L < pow2 53).
    { eapply Qle_lt_trans; [exact Hlo |]. rewrite pow2_Z by lia.
      rewrite <- Zlt_Qlt. exact Hn. }
    apply Qpower_lt_compat_l_inv in Hlt; [lia | reflexivity]. }
  rewrite Z.max_l by lia.
  assert (Ex : inject_Z a / pow2 (L - 52) == inject_Z (a * 2 ^ (52 - L))).
  { rewrite inject_Z_mult, <- pow2_Z by lia.
    assert (E1 : pow2 (52 - L) * pow2 (L - 52) == 1).
    { rewrite <- pow2_add. now replace (52 - L + (L - 52))%Z with 0%Z by lia. }
    pose proof (pow2_pos (L - 52)) as Hp.
    assert (Hp0 : ~ pow2 (L - 52) == 0).
    { intros Hz. rewrite Hz in Hp. now apply (Qlt_irrefl 0). }
    unfold Qdiv. apply (Qmult_inj_r _ _ (pow2 (L - 52)) Hp0).
    rewrite <- !Qmult_assoc, E1, (Qmult_comm (/ pow2 (L - 52))), Qmult_inv_r by exact Hp0.
    reflexivity. }
  rewrite (round_half_even_Z _ _ Ex).
  assert (Er : inject_Z (a * 2 ^ (52 - L)) * pow2 (L - 52) == inject_Z a).
  { rewrite inject_Z_mult, <- pow2_Z by lia.
    rewrite <- Qmult_assoc, <- pow2_add.
    replace (52 - L + (L - 52))%Z with 0%Z by lia. change (pow2 0) with 1. ring. }
  destruct (Qle_bool (pow2 1024) _) eqn:Eo.
  { exfalso. apply Qle_bool_iff in Eo. rewrite Er in Eo.
    assert (Hp : pow2 53 <= pow2 1024) by (apply pow2_le; lia).
    rewrite pow2_Z in Hp by lia.
    assert (Hlt : inject_Z a < inject_Z (2 ^ 53)) by (rewrite <- Zlt_Qlt; exact Hn).
    lra. }
  f_equal. rewrite <- (Qred_inject_Z n) at 2.
  apply Qred_complete.
  destruct (Qltb_spec (inject_Z n) 0) as [Hneg | Hpos].
  - rewrite Er. unfold a. change 0 with (inject_Z 0) in Hneg. rewrite <- Zlt_Qlt in Hneg.
    rewrite Z.abs_neq by lia. rewrite inject_Z_opp. ring.
  - rewrite Er. unfold a. apply Qnot_lt_le in Hpos.
    change 0 with (inject_Z 0) in Hpos. rewrite <- Zle_Qle in Hpos.
    now rewrite Z.abs_eq by lia.
Qed.

Lemma Qgeb_spec (x y : Q) : reflect (y <= x) (Qgeb x y).
Proof.
  unfold Qgeb. destruct (Qle_bool y x) eqn:E; constructor.
  - now apply Qle_bool_iff.
  - intros Hle. apply Qle_bool_iff in Hle. congruence.
Qed.

Lemma in_range_spec (x lo hi : Q) : reflect (lo <= x /\ x < hi) (Qgeb x lo && Qltb x hi).
Proof.
  destruct (Qgeb_spec x lo), (Qltb_spec x hi); constructor; tauto.
Qed.

(** ** BandClassifier *)

Ltac band_cascade :=
  repeat match goal with
    | |- context [if Qgeb ?x ?lo && Qltb ?x ?hi then _ else _] =>
        destruct (in_range_spec x lo hi)
    end.

(** C4. [freqToBand] divides the value by 1000 and looks the quotient up in
    the fixed table of pairwise disjoint ranges (lower bound inclusive, upper
    bound exclusive): it answers the name of an entry exactly when the
    quotient lies in its range, and "Other" exactly when it lies in none;
    7100 is on 40m, 7300 on no band, 14349 on 20m and 14350 on no band. *)
Theorem freqToBand_table (freq : Q) :
  Forall (fun e => freqToBand freq = band_name e <-> in_band (freq / 1000) e) band_table
  /\ (freqToBand freq = "Other"%string
      <-> Forall (fun e => ~ in_band (freq / 1000) e) band_table)
  /\ (forall mhz, ForallOrdPairs (fun e1 e2 => ~ (in_band mhz e1 /\ in_band mhz e2))
                    band_table)
  /\ List.map band_name band_table
     = ["160m"; "80m"; "60m"; "40m"; "30m"; "20m"; "17m"; "15m"; "12m"; "10m"; "6m"]%string
  /\ freqToBand 7100 = "40m"%string /\ freqToBand 7300 = "Other"%string
  /\ freqToBand 14349 = "20m"%string /\ freqToBand 14350 = "Other"%string.
Proof.
  split; [| split; [| split; [| repeat split]]].
  - unfold freqToBand, band_table, in_band, band_name.
    generalize (freq / 1000). intros x.
    repeat apply Forall_cons_2; try apply Forall_nil_2; simpl;
      band_cascade; (split; [intros; try discriminate; lra | intros; try reflexivity; exfalso; lra]).
  - unfold freqToBand, band_table, in_band.
    generalize (freq / 1000). intros x. rewrite !Forall_cons. simpl.
    band_cascade; (split; [intros; try discriminate; repeat split; try apply Forall_nil_2; lra | intros; try reflexivity; exfalso; lra]).
  - intros mhz. unfold band_table, in_band.
    repeat (constructor; [repeat apply Forall_cons_2; try apply Forall_nil_2; simpl; lra |]).
    constructor.
Qed.

(** ** SignalClassifier *)

Lemma classifier_of_tier (t : Tier) (snr : Q) :
  in_tier t snr ->
  getSNRColor (Some snr) = tier_color t /\ getMarkerSize (Some snr) = tier_radius t.
Proof.
  unfold getSNRColor, getMarkerSize.
  destruct (Qltb_spec snr 0), (Qltb_spec snr 10), (Qltb_spec snr 20),
    (Qltb_spec snr 30); destruct t; simpl; intros Ht; first [now split | exfalso; lra].
Qed.

Lemma tier_exists (snr : Q) : exists t, in_tier t snr.
Proof.
  destruct (Qlt_le_dec snr 0); [now exists Weak |].
  destruct (Qlt_le_dec snr 10); [now exists Fair |].
  destruct (Qlt_le_dec snr 20); [now exists Good |].
  destruct (Qlt_le_dec snr 30); [now exists VeryGood | now exists Excellent].
Qed.

Lemma tier_unique (t1 t2 : Tier) (snr : Q) : in_tier t1 snr -> in_tier t2 snr -> t1 = t2.
Proof. destruct t1, t2; simpl; intros; first [reflexivity | exfalso; lra]. Qed.

(** C8. Every SNR lies in exactly one of the five tiers <0, [0,10), [10,20),
    [20,30), >=30; the colour and the marker radius depend on the tier only;
    the five colours are pairwise distinct, the radius grows strictly with
    the tier, and an absent SNR gets the neutral gray and the smallest
    radius. *)
Theorem snr_tiers :
  (forall snr, exists t, in_tier t snr /\ forall t', in_tier t' snr -> t' = t)
  /\ (forall t, t ∈ tiers) /\ List.length tiers = 5%nat
  /\ (forall t snr, in_tier t snr ->
        getSNRColor (Some snr) = tier_color t /\ getMarkerSize (Some snr) = tier_radius t)
  /\ NoDup (List.map tier_color tiers)
  /\ (tier_radius Weak < tier_radius Fair)%Z
  /\ (tier_radius Fair < tier_radius Good)%Z
  /\ (tier_radius Good < tier_radius VeryGood)%Z
  /\ (tier_radius VeryGood < tier_radius Excellent)%Z
  /\ getSNRColor None = neutral_gray
  /\ (neutral_gray ∉ List.map tier_color tiers)
  /\ getMarkerSize None = tier_radius Weak
  /\ (forall t, tier_radius Weak <= tier_radius t)%Z.
Proof.
  split; [| split; [| split; [| split; [| split; [| split; [| split; [| split;
    [| split; [| split; [| split; [| split]]]]]]]]]]].
  - intros snr. destruct (tier_exists snr) as [t Ht]. exists t. split; [exact Ht |].
    intros t' Ht'. exact (tier_unique t' t snr Ht' Ht).
  - intros t. unfold tiers. destruct t; set_solver.
  - reflexivity.
  - exact classifier_of_tier.
  - apply (bool_decide_unpack _). vm_compute. exact I.
  - reflexivity.
  - reflexivity.
  - reflexivity.
  - reflexivity.
  - reflexivity.
  - apply (bool_decide_unpack _). vm_compute. exact I.
  - reflexivity.
  - intros t. destruct t; simpl; lia.
Qed.

(** ** GridLocator *)

Lemma field_index_code (c : ascii) (i : nat) :
  field_index c = Some i -> nat_of_ascii (upper_ascii c) = (65 + i)%nat.
Proof.
  destruct c as [[] [] [] [] [] [] [] []]; intros E; cbv in E; try discriminate E;
    injection E as <-; reflexivity.
Qed.

Lemma subsquare_index_code (c : ascii) (i : nat) :
  subsquare_index c = Some i -> nat_of_ascii (upper_ascii c) = (65 + i)%nat.
Proof.
  destruct c as [[] [] [] [] [] [] [] []]; intros E; cbv in E; try discriminate E;
    injection E as <-; reflexivity.
Qed.

Lemma digit_index_code (c : ascii) (n : nat) :
  digit_index c = Some n ->
  is_digit (upper_ascii c) = true /\ (nat_of_ascii (upper_ascii c) - 48)%nat = n.
Proof.
  destruct c as [[] [] [] [] [] [] [] []]; intros E; cbv in E; try discriminate E;
    injection E as <-; split; reflexivity.
Qed.

Lemma letter_number (c : ascii) (i : nat) :
  nat_of_ascii (upper_ascii c) = (65 + i)%nat ->
  code_of (upper_ascii c) = Num (inject_Z (Z.of_nat (65 + i))).
Proof. intros E. unfold code_of. now rewrite E. Qed.

Lemma digit_number (c : ascii) (n : nat) :
  digit_index c = Some n -> parseInt_char (upper_ascii c) = Num (nat_Q n).
Proof.
  intros E. apply digit_index_code in E as [Hd Hn]. unfold parseInt_char, nat_Q.
  now rewrite Hd, Hn.
Qed.

Lemma nat_Q_65 (i : nat) : inject_Z (Z.of_nat (65 + i)) == 65 + nat_Q i.
Proof. unfold nat_Q. rewrite Nat2Z.inj_add, inject_Z_plus. reflexivity. Qed.

(** The four-character decoding, on the characters. *)
Lemma gridToLatLon_4 (a b c d : ascii) :
  gridToLatLon (String a (String b (String c (String d EmptyString))))
  = Some (mkLatLon
            ((code_of (upper_ascii b) - Num 65) * Num 10 - Num 90
             + parseInt_char (upper_ascii d) + Num 0.5)%js
            ((code_of (upper_ascii a) - Num 65) * Num 20 - Num 180
             + parseInt_char (upper_ascii c) * Num 2 + Num 1)%js).
Proof. reflexivity. Qed.

Lemma gridToLatLon_6 (a b c d e f : ascii) :
  gridToLatLon
    (String a (String b (String c (String d (String e (String f EmptyString))))))
  = Some (mkLatLon
            ((code_of (upper_ascii b) - Num 65) * Num 10 - Num 90
             + parseInt_char (upper_ascii d)
             + (code_of (upper_ascii f) - Num 65) * (Num 1 / Num 24)
             + Num 0.5 / Num 24)%js
            ((code_of (upper_ascii a) - Num 65) * Num 20 - Num 180
             + parseInt_char (upper_ascii c) * Num 2
             + (code_of (upper_ascii e) - Num 65) * (Num 2 / Num 24)
             + Num 1 / Num 24)%js).
Proof. reflexivity. Qed.

Lemma square4_centre (a b c d : ascii) (sq : Square) :
  square4 a b c d = Some sq ->
  exists c4, gridToLatLon (String a (String b (String c (String d EmptyString)))) = Some c4
    /\ is_coord c4 (centre_lat sq) (centre_lon sq)
    /\ lat_span sq / 2 == 0.5 /\ lon_span sq / 2 == 1.
Proof.
  unfold square4. intros E.
  destruct (field_index a) as [i|] eqn:Ea; [| discriminate].
  destruct (field_index b) as [j|] eqn:Eb; [| discriminate].
  destruct (digit_index c) as [m|] eqn:Ec; [| discriminate].
  destruct (digit_index d) as [n|] eqn:Ed; [| discriminate].
  injection E as <-. eexists. split; [apply gridToLatLon_4 |].
  rewrite (letter_number _ _ (field_index_code _ _ Ea)),
    (letter_number _ _ (field_index_code _ _ Eb)),
    (digit_number _ _ Ec), (digit_number _ _ Ed).
  unfold is_coord, centre_lat, centre_lon.
  cbn [lat lon nsub nadd nmul nneg num_eq sw_lat sw_lon lat_span lon_span].
  rewrite !nat_Q_65.
  generalize (nat_Q i), (nat_Q j), (nat_Q m), (nat_Q n). intros qi qj qm qn.
  repeat split; field.
Qed.

Lemma square6_centre (a b c d e f : ascii) (sq4 : Square) (k l : nat) :
  square4 a b c d = Some sq4 ->
  subsquare_index e = Some k ->
  subsquare_index f = Some l ->
  exists c6,
    gridToLatLon
      (String a (String b (String c (String d (String e (String f EmptyString))))))
    = Some c6
    /\ is_coord c6 (sw_lat sq4 + (1 / 24) * nat_Q l + (1 / 24) / 2)
                   (sw_lon sq4 + (2 / 24) * nat_Q k + (2 / 24) / 2).
Proof.
  unfold square4. intros E Ee Ef.
  destruct (field_index a) as [i|] eqn:Ea; [| discriminate].
  destruct (field_index b) as [j|] eqn:Eb; [| discriminate].
  destruct (digit_index c) as [m|] eqn:Ec; [| discriminate].
  destruct (digit_index d) as [n|] eqn:Ed; [| discriminate].
  injection E as <-. eexists. split; [apply gridToLatLon_6 |].
  rewrite (letter_number _ _ (field_index_code _ _ Ea)),
    (letter_number _ _ (field_index_code _ _ Eb)),
    (letter_number _ _ (subsquare_index_code _ _ Ee)),
    (letter_number _ _ (subsquare_index_code _ _ Ef)),
    (digit_number _ _ Ec), (digit_number _ _ Ed).
  unfold is_coord.
  cbn [lat lon nsub nadd nmul ndiv nneg num_eq sw_lat sw_lon lat_span lon_span].
  change (Qeq_bool 24 0) with false. cbn [num_eq nadd nmul].
  rewrite !nat_Q_65.
  generalize (nat_Q i), (nat_Q j), (nat_Q m), (nat_Q n), (nat_Q k), (nat_Q l).
  intros qi qj qm qn qk ql. split; field.
Qed.

Lemma centre_off_corner (x s h : Q) : x == s + h -> 0 < h -> ~ x == s.
Proof. intros E Hh Hx. rewrite Hx in E. lra. Qed.

(** C6. On a valid locator [gridToLatLon] returns the centre of the square
    (four characters) or of the sub-square (six): the south-west corner plus
    half the extent, that is 1 degree of longitude and 0.5 of latitude, or
    1/24 and 0.5/24; neither coordinate is that of the corner. *)
Theorem gridToLatLon_centre (locator : string) (sq : Square) :
  locator_square locator = Some sq ->
  exists c,
    gridToLatLon locator = Some c
    /\ is_coord c (sw_lat sq + lat_span sq / 2) (sw_lon sq + lon_span sq / 2)
    /\ ~ num_eq (lat c) (Num (sw_lat sq))
    /\ ~ num_eq (lon c) (Num (sw_lon sq))
    /\ (String.length locator = 4%nat ->
        lon_span sq / 2 == 1 /\ lat_span sq / 2 == 0.5)
    /\ (String.length locator = 6%nat ->
        lon_span sq / 2 == 1 / 24 /\ lat_span sq / 2 == 0.5 / 24).
Proof.
  intros E.
  destruct locator as [|a [|b [|c [|d [|e [|f [|g r]]]]]]];
    cbn [locator_square] in E; try discriminate E.
  - (* four characters *)
    destruct (square4_centre a b c d sq E) as (c4 & Hc4 & [Hla Hlo] & Hlat & Hlon).
    exists c4. split; [exact Hc4 |]. split; [split; [exact Hla | exact Hlo] |].
    assert (Hspan : lat_span sq = 1 /\ lon_span sq = 2).
    { unfold square4 in E. destruct (field_index a), (field_index b), (digit_index c),
        (digit_index d); try discriminate E. injection E as <-. now split. }
    destruct Hspan as [Hs1 Hs2].
    destruct c4 as [[la| | |] [lo| | |]]; cbn [num_eq lat lon] in *; try contradiction.
    unfold centre_lat in Hla. unfold centre_lon in Hlo.
    split; [| split; [| split]].
    + apply (centre_off_corner _ _ _ Hla). now rewrite Hs1.
    + apply (centre_off_corner _ _ _ Hlo). now rewrite Hs2.
    + intros _. split; [exact Hlon | exact Hlat].
    + intros Hlen. discriminate Hlen.
  - (* six characters *)
    destruct (square4 a b c d) as [sq4|] eqn:E4; [| discriminate E].
    destruct (subsquare_index e) as [k|] eqn:Ee; [| discriminate E].
    destruct (subsquare_index f) as [l|] eqn:Ef; [| discriminate E].
    injection E as <-.
    destruct (square6_centre a b c d e f sq4 k l E4 Ee Ef) as (c6 & Hc6 & [Hla Hlo]).
    exists c6. split; [exact Hc6 |]. cbn [sw_lat sw_lon lat_span lon_span].
    split; [split; [exact Hla | exact Hlo] |].
    destruct c6 as [[la| | |] [lo| | |]]; cbn [num_eq lat lon] in *; try contradiction.
    split; [| split; [| split]].
    + now apply (centre_off_corner _ _ _ Hla).
    + now apply (centre_off_corner _ _ _ Hlo).
    + intros Hlen. discriminate Hlen.
    + intros _. split; reflexivity.
Qed.

(** The valid locator FN20 resolves to the centre (40.5, -75) of its square. *)
Lemma gridToLatLon_centre_witness :
  locator_square "FN20" = Some (mkSquare 40 (-76) 1 2)
  /\ exists c,
      gridToLatLon "FN20" = Some c
      /\ is_coord c (40 + 1 / 2) (-76 + 2 / 2)
      /\ ~ num_eq (lat c) (Num 40)
      /\ ~ num_eq (lon c) (Num (-76))
      /\ (String.length "FN20" = 4%nat -> 2 / 2 == 1 /\ 1 / 2 == 0.5)
      /\ (String.length "FN20" = 6%nat -> 2 / 2 == 1 / 24 /\ 1 / 2 == 0.5 / 24).
Proof.
  split; [reflexivity |].
  exact (gridToLatLon_centre "FN20" (mkSquare 40 (-76) 1 2) eq_refl).
Defined.

(** C2, as stated, fails: ZZ99 has letters outside A-R, and yet it is
    resolved, to a coordinate that is on no map. *)
Lemma gridToLatLon_ZZ99 :
  malformed "ZZ99"
  /\ exists c, gridToLatLon "ZZ99" = Some c /\ is_coord c 169.5 339.
Proof.
  split.
  - left. reflexivity.
  - eexists. split; [reflexivity |]. split; reflexivity.
Qed.

(** The same without numbers: the letters of FNxx stand where digits belong,
    and the result is a record of two [NaN]. *)
Lemma gridToLatLon_FNxx :
  malformed "FNxx" /\ gridToLatLon "FNxx" = Some (mkLatLon NaN NaN).
Proof. split; [right; right; left; reflexivity | reflexivity]. Qed.

(** C2, amended. [gridToLatLon] answers [None] exactly on the strings of
    fewer than four characters (the empty one among them); on every string
    of at least four characters it answers a coordinate record, whatever the
    characters are: none is validated.  ZZ99, whose letters are outside A-R,
    resolves to latitude 169.5 and longitude 339; FNxx, which has letters
    where the digits belong, to a record of two [NaN]. *)
Theorem gridToLatLon_None_iff (locator : string) :
  (gridToLatLon locator = None <-> (String.length locator < 4)%nat)
  /\ ((4 <= String.length locator)%nat -> exists c, gridToLatLon locator = Some c)
  /\ gridToLatLon "" = None /\ gridToLatLon "A" = None
  /\ gridToLatLon "ZZ99" = Some (mkLatLon (Num 169.5) (Num 339))
  /\ gridToLatLon "FNxx" = Some (mkLatLon NaN NaN).
Proof.
  split; [| split; [| now repeat split]].
  - unfold gridToLatLon.
    destruct (String.length locator <? 4)%nat eqn:E.
    + rewrite orb_true_r. apply Nat.ltb_lt in E. tauto.
    + apply Nat.ltb_ge in E.
      destruct (String.length locator =? 0)%nat eqn:E0;
        [apply Nat.eqb_eq in E0; lia |].
      cbn [orb]. destruct (6 <=? String.length (toUpperCase locator))%nat;
        (split; [discriminate | lia]).
  - intros Hlen. unfold gridToLatLon.
    destruct (String.length locator <? 4)%nat eqn:E; [apply Nat.ltb_lt in E; lia |].
    destruct (String.length locator =? 0)%nat eqn:E0;
      [apply Nat.eqb_eq in E0; lia |].
    cbn [orb]. destruct (6 <=? String.length (toUpperCase locator))%nat; eauto.
Qed.

(** C5, as stated, fails: FN20 is resolved, and not near (42.5, -71). *)
Lemma gridToLatLon_FN20_not_near :
  exists c, gridToLatLon "FN20" = Some c /\ is_coord c 40.5 (-75)
    /\ ~ near 40.5 (-75) 42.5 (-71).
Proof.
  eexists. split; [reflexivity |]. split; [split; reflexivity |].
  unfold near. intros [Hla _]. revert Hla. vm_compute. discriminate.
Qed.

(** C5, amended. FN20 resolves to (40.5, -75), the centre of the square of
    1 by 2 degrees whose south-west corner is (40, -76); fn20xp resolves to
    (40 + 31/48, -74 - 1/24), strictly inside that square: it is the centre
    of a sub-square of 1/24 by 2/24 degrees that lies within the square. *)
Theorem gridToLatLon_FN20 :
  exists c4 c6 sq4 sq6,
    gridToLatLon "FN20" = Some c4 /\ is_coord c4 40.5 (-75)
    /\ locator_square "FN20" = Some sq4
    /\ sw_lat sq4 == 40 /\ sw_lon sq4 == -76 /\ lat_span sq4 == 1 /\ lon_span sq4 == 2
    /\ gridToLatLon "fn20xp" = Some c6
    /\ is_coord c6 (40 + (31 # 48)) (-74 - (1 # 24))
    /\ (sw_lat sq4 < 40 + (31 # 48) /\ 40 + (31 # 48) < sw_lat sq4 + lat_span sq4
        /\ sw_lon sq4 < -74 - (1 # 24) /\ -74 - (1 # 24) < sw_lon sq4 + lon_span sq4)
    /\ locator_square "fn20xp" = Some sq6
    /\ is_coord c6 (centre_lat sq6) (centre_lon sq6)
    /\ lat_span sq6 < lat_span sq4 /\ lon_span sq6 < lon_span sq4
    /\ square_within sq6 sq4.
Proof.
  do 4 eexists.
  split; [reflexivity |]. split; [split; reflexivity |].
  split; [reflexivity |]. do 4 (split; [reflexivity |]).
  split; [reflexivity |]. split; [split; reflexivity |].
  split; [repeat split |]. split; [reflexivity |].
  split; [split; reflexivity |]. split; [reflexivity |]. split; [reflexivity |].
  unfold square_within. cbn [sw_lat sw_lon lat_span lon_span].
  repeat split; vm_compute; discriminate.
Qed.

(** ** GreatCirclePathGenerator *)

(** C7, as the specification words it, fails: the guard compares the
    differences as JavaScript computes them, rounded to binary64.  From
    latitude 2^-60 to latitude 1/2 on the meridian 0 the two coordinates are
    less than 0.5 degrees apart in latitude and in longitude, the computed
    difference of the latitudes is 0.5, and the path is the interpolation,
    of 31 points. *)
Lemma getGreatCirclePath_rounded_delta :
  Qabs (0.5 - pow2 (-60)) < 0.5 /\ Qabs (0 - 0) < 0.5
  /\ round64 (Num 0.5 - Num (pow2 (-60)))%js = Num (1 # 2)
  /\ @getGreatCirclePath no_math (Num (pow2 (-60))) (Num 0) (Num 0.5) (Num 0) 30
     = @interpolation no_math (Num (pow2 (-60))) (Num 0) (Num 0.5) (Num 0) 30
  /\ List.length
       (@getGreatCirclePath no_math (Num (pow2 (-60))) (Num 0) (Num 0.5) (Num 0) 30)
     = 31%nat
  /\ @getGreatCirclePath no_math (Num (pow2 (-60))) (Num 0) (Num 0.5) (Num 0) 30
     <> [(Num (pow2 (-60)), Num 0); (Num 0.5, Num 0)].
Proof.
  split; [vm_compute; reflexivity |]. split; [reflexivity |].
  split; [vm_compute; reflexivity |]. split; [vm_compute; reflexivity |].
  split; [vm_compute; reflexivity |]. vm_compute. discriminate.
Qed.

(** C7, amended. When a component of one of the two coordinates is not finite, or
    when the two coordinates are less than 0.5 - 2^-55 degrees apart both in
    latitude and in longitude (two identical coordinates are), so that the
    two differences rounded to binary64 are below 0.5, the path is the
    segment of the two points, whatever the functions of [Math] are: the
    interpolation, and with it the division by sin(d), is not reached. *)
Theorem getGreatCirclePath_guard `{MathObj} (lat1 lon1 lat2 lon2 : number)
    (numPoints : nat) :
  isFinite lat1 && isFinite lon1 && isFinite lat2 && isFinite lon2 = false
  \/ (exists a1 o1 a2 o2,
        lat1 = Num a1 /\ lon1 = Num o1 /\ lat2 = Num a2 /\ lon2 = Num o2
        /\ Qabs (a2 - a1) < 0.5 - pow2 (-55) /\ Qabs (o2 - o1) < 0.5 - pow2 (-55)) ->
  getGreatCirclePath lat1 lon1 lat2 lon2 numPoints = [(lat1, lon1); (lat2, lon2)].
Proof.
  intros [Hnf | (a1 & o1 & a2 & o2 & -> & -> & -> & -> & Hla & Hlo)];
    unfold getGreatCirclePath.
  - destruct (isFinite lat1), (isFinite lon1), (isFinite lat2), (isFinite lon2);
      try discriminate Hnf; reflexivity.
  - cbn [isFinite negb orb nsub nneg nadd round64].
    rewrite (binary64_below_half (a2 + - a1)) by exact Hla.
    rewrite (binary64_below_half (o2 + - o1)) by exact Hlo.
    reflexivity.
Qed.

(** From Toronto to Toronto, and from anywhere to a coordinate of [NaN]. *)
Lemma getGreatCirclePath_guard_witness :
  @getGreatCirclePath no_math (Num 43.6785) (Num (-79.2935)) (Num 43.6785)
    (Num (-79.2935)) 30
  = [(Num 43.6785, Num (-79.2935)); (Num 43.6785, Num (-79.2935))]
  /\ @getGreatCirclePath no_math (Num 43.6785) (Num (-79.2935)) NaN NaN 30
     = [(Num 43.6785, Num (-79.2935)); (NaN, NaN)].
Proof.
  split.
  - apply (@getGreatCirclePath_guard no_math). right.
    exists 43.6785, (-79.2935), 43.6785, (-79.2935).
    repeat split; reflexivity.
  - apply (@getGreatCirclePath_guard no_math). left. reflexivity.
Defined.

(** ** SpotFeed: the statistics *)

Lemma computeStats_total (retained : list Spot) :
  total (computeStats retained) = List.length retained.
Proof. reflexivity. Qed.

(** The size of the [Set] is the number of distinct reporters. *)
Lemma computeStats_skimmers (retained : list Spot) :
  skimmers (computeStats retained)
  = List.length (remove_dups (List.map reporter retained)).
Proof.
  unfold computeStats, uniqueSkimmers. cbn [skimmers].
  change (List.map (fun s => or_jsstring (callsign s) (de s)) retained)
    with (List.map reporter retained).
  rewrite <- (size_list_to_set (C := gset jsstring))
    by apply NoDup_remove_dups.
  f_equal. apply set_eq. intros x.
  now rewrite !elem_of_list_to_set, elem_of_remove_dups.
Qed.

(** [snr || db] is the SNR the spot carries, unless [snr] is 0. *)
Lemma or_num_present (s : Spot) :
  (forall q, snr s = Some q -> ~ q == 0) -> or_num (snr s) (db s) = present_snr s.
Proof.
  unfold or_num, present_snr, truthy_num. intros Hnz.
  destruct (snr s) as [q|]; [| reflexivity].
  destruct (Qeq_bool q 0) eqn:E; [| reflexivity].
  apply Qeq_bool_iff in E. now destruct (Hnz q eq_refl).
Qed.

Lemma validSNRs_present (retained : list Spot) :
  Forall (fun s => forall q, snr s = Some q -> ~ q == 0) retained ->
  validSNRs retained = omap present_snr retained.
Proof.
  unfold validSNRs. induction 1 as [|s l Hs _ IH]; [reflexivity |].
  cbn [omap list_omap]. now rewrite (or_num_present s Hs), IH.
Qed.

(** The sum of SNR values in whole decibels is exact. *)
Lemma reduce_exact (values : list Q) (k : Z) :
  Forall whole_dB values ->
  (Z.abs k + Z.of_nat (List.length values) * 1000000 < 2 ^ 53)%Z ->
  exists K : Z,
    fold_left (fun a b => round64 (a + Num b)%js) values (Num (inject_Z k))
    = Num (inject_Z K)
    /\ inject_Z K == inject_Z k + Qsum values.
Proof.
  intros Hw. revert k. induction Hw as [|q l (z & Eq & Hz) _ IH]; intros k Hk.
  - exists k. split; [reflexivity |]. cbn [Qsum fold_right]. ring.
  - cbn [List.length] in Hk. cbn [fold_left nadd round64].
    assert (E1 : inject_Z k + q == inject_Z (k + z))
      by (rewrite inject_Z_plus, Eq; reflexivity).
    rewrite (binary64_int _ _ E1) by lia.
    destruct (IH (k + z)%Z) as (K & EK & HK); [lia |].
    exists K. split; [exact EK |].
    unfold Qsum. cbn [fold_right]. fold (Qsum l).
    rewrite HK, inject_Z_plus, Eq. ring.
Qed.

Lemma omap_length_le {A B : Type} (f : A -> option B) (l : list A) :
  (List.length (omap f l) <= List.length l)%nat.
Proof.
  induction l as [|x l IH]; cbn [omap list_omap List.length]; [lia |].
  destruct (f x); cbn [List.length]; lia.
Qed.

(** The examples of the specification. *)
Example computeStats_three_spots :
  let retained := [heard (Some 10) "W1AW"; heard (Some 20) "K1TTT"; heard None "N1MM"] in
  avgSNR (computeStats retained) = VStr "15.0" /\ total (computeStats retained) = 3%nat.
Proof. split; vm_compute; reflexivity. Qed.

Example computeStats_shared_reporter :
  skimmers (computeStats [heard (Some 10) "W1AW"; heard (Some 20) "W1AW"]) = 1%nat.
Proof. vm_compute. reflexivity. Qed.

(** A reporter that is [null] and one that is missing are two members of
    the [Set]. *)
Example computeStats_null_and_missing :
  skimmers
    (computeStats
       [mkSpot None None Null Null None None None None TUndefined TUndefined;
        mkSpot None None Undefined Undefined None None None None TUndefined TUndefined])
  = 2%nat.
Proof. vm_compute. reflexivity. Qed.

(** The quotient is rounded to binary64 before it is printed: the mean of
    seventeen spots at 1 dB and three at 2 dB is 1.15, the binary64 number
    nearest to it is smaller, and the average reads 1.1. *)
Example computeStats_rounds_the_quotient :
  avgSNR (computeStats (repeat (heard (Some 1) "W1AW") 17
                        ++ repeat (heard (Some 2) "K1TTT") 3))
  = VStr "1.1"
  /\ toFixed1 (23 # 20) = "1.2"%string.
Proof. split; vm_compute; reflexivity. Qed.

(** C1. The statistics of [zero_snr_feed]: two spots, two reporters, and yet
    a mean of 10.0, that of the one spot at 10 dB.  The spot at 0 dB carries
    an SNR, and the mean of the two values present, 0 and 10, is 5.0: the [||]
    of line 187 takes the 0 for a missing value. *)
Theorem computeStats_drops_zero_snr :
  omap present_snr zero_snr_feed = [0; 10]
  /\ validSNRs zero_snr_feed = [10]
  /\ computeStats zero_snr_feed = mkStats 2 2 (VStr "10.0")
  /\ spec_stats zero_snr_feed = mkStats 2 2 (VStr "5.0").
Proof. repeat split; vm_compute; reflexivity. Qed.

(** ** SpotFeed: failures *)

Section LifecycleFacts.
Context `{MathObj}.

Lemma Qeq_bool_same (q : Q) : Qeq_bool q q = true.
Proof. apply Qeq_bool_iff. reflexivity. Qed.

(** A render that changes no dependency runs no effect. *)
Lemma rerender_same_deps (prev st : State) : same_deps prev st -> rerender prev st = st.
Proof.
  intros (He & Ho & Hc & Hsp & Hb & Ht & Hm & Hp & Hs).
  unfold rerender, deps_poll_changed, deps_render_changed, deps_control_changed,
    deps_disable_changed.
  rewrite He, Ho, Hc, Hsp, Hb, Ht, Hm, Hp, Hs.
  rewrite !Bool.eqb_reflx, !Nat.eqb_refl, !String.eqb_refl, !Z.eqb_refl, !Qeq_bool_same,
    !bool_decide_eq_true_2 by reflexivity.
  reflexivity.
Qed.

(** [fetchRBNSpots] catches whatever its [try] block throws. *)
Lemma fetchRBNSpots_settle_total (c : Closure) (now : Z) (response : Response)
    (st : State) :
  exists st', fetchRBNSpots_settle c now response st = Ok st'.
Proof.
  unfold fetchRBNSpots_settle, try_catch.
  destruct (fetchRBNSpots_try c now response st); eauto.
Qed.

Lemma step_total (st : State) (ev : Event) : exists st', step st ev = Runs st'.
Proof.
  destruct ev; cbn [step]; eauto.
  - destruct (interval st); eauto.
  - destruct (inflight st !! i); eauto.
    destruct (fetchRBNSpots_settle_total c now response
                (set_inflight (delete i (inflight st)) st)) as [st' ->].
    eauto.
Qed.

Lemma failure_throws (c : Closure) (now : Z) (response : Response) (st : State) :
  retrieval_fails response -> exists e, fetchRBNSpots_try c now response st = Throw e.
Proof.
  destruct response as [|status body]; cbn [retrieval_fails fetchRBNSpots_try].
  - eauto.
  - intros [-> | ->]; cbn [negb]; [eauto |].
    destruct (response_ok status); cbn [negb]; eauto.
Qed.

End LifecycleFacts.

(** C9. When the retrieval of a refresh fails (no response, a status that is
    not 2xx, a body that does not parse), the main loop goes on: nothing is
    raised, the retained spots and the statistics are those of before, and
    all that changes in the hook and on the map is one more error line on
    the console. *)
Theorem failed_refresh_is_soft `{MathObj} (st : State) (i : nat) (c : Closure)
    (now : Z) (response : Response) :
  inflight st !! i = Some c ->
  retrieval_fails response ->
  exists st' e,
    step st (Settles i now response) = Runs st'
    /\ spots st' = spots st /\ stats st' = stats st
    /\ console st' = console st ++ [Error "[RBN] Error fetching spots:" e]
    /\ st' = console_error "[RBN] Error fetching spots:" e
               (set_inflight (delete i (inflight st)) st).
Proof.
  intros Hi Hfail. cbn [step]. rewrite Hi.
  destruct (failure_throws c now response (set_inflight (delete i (inflight st)) st) Hfail)
    as [e He].
  unfold fetchRBNSpots_settle. rewrite He. cbn [try_catch].
  rewrite rerender_same_deps by (repeat split).
  eexists _, e. repeat split.
Qed.

(** A refresh that hangs on a server error. *)
Lemma failed_refresh_is_soft_witness :
  let st := @mount no_math true 0.7 (Some "W1AW"%string) None in
  exists st' e,
    @step no_math st (Settles 0 0 (Http 500 JsonOther)) = Runs st'
    /\ spots st' = spots st /\ stats st' = stats st
    /\ console st' = console st ++ [Error "[RBN] Error fetching spots:" e]
    /\ st' = console_error "[RBN] Error fetching spots:" e
               (set_inflight (delete 0%nat (inflight st)) st).
Proof.
  apply (@failed_refresh_is_soft no_math _ 0%nat
           (mkClosure (Some "W1AW"%string) 30) 0 (Http 500 JsonOther)).
  - reflexivity.
  - left. reflexivity.
Defined.

(** ** OverlayLifecycleManager: what is on the drawing surface *)

Section SurfaceFacts.
Context `{MathObj}.

(** Removing layers one by one removes those whose handle is listed. *)
Lemma remove_all (layers on_map : list Layer) :
  fold_left (fun on_map layer => removeLayer layer on_map) layers on_map
  = List.filter
      (fun l => forallb (fun layer => negb (handle l =? handle layer)%nat) layers)
      on_map.
Proof.
  revert on_map. induction layers as [|x layers IH]; intros on_map; cbn [fold_left].
  - cbn [forallb]. induction on_map as [|y on_map IHm]; [reflexivity |].
    cbn [List.filter]. now rewrite <- IHm.
  - rewrite IH. unfold removeLayer. clear IH.
    induction on_map as [|y on_map IHm]; [reflexivity |].
    cbn [List.filter forallb].
    destruct (negb (handle y =? handle x)%nat); cbn [List.filter andb];
      rewrite IHm; reflexivity.
Qed.

Lemma remove_all_self (layers : list Layer) :
  fold_left (fun on_map layer => removeLayer layer on_map) layers layers = [].
Proof.
  rewrite remove_all.
  assert (Hall : forall l, In l layers ->
            forallb (fun layer => negb (handle l =? handle layer)%nat) layers = false).
  { intros l Hl. apply not_true_is_false. intros Hf.
    rewrite forallb_forall in Hf. specialize (Hf l Hl).
    now rewrite Nat.eqb_refl in Hf. }
  assert (Hnil : forall on_map, (forall l, In l on_map -> In l layers) ->
            List.filter
              (fun l => forallb (fun layer => negb (handle l =? handle layer)%nat) layers)
              on_map = []).
  { induction on_map as [|y on_map IHm]; intros Hsub; [reflexivity |].
    cbn [List.filter]. rewrite (Hall y (Hsub y (or_introl eq_refl))).
    apply IHm. intros l Hl. apply Hsub. now right. }
  apply Hnil. auto.
Qed.

Lemma clear_layers_tracked (st : State) :
  tracked st ->
  layersRef (clear_layers st) = [] /\ map_layers (clear_layers st) = []
  /\ hook_values (clear_layers st) = hook_values st.
Proof.
  unfold tracked, clear_layers. intros ->. cbn. now rewrite remove_all_self.
Qed.

Lemma addTo_tracked (sh : Shape) (st : State) :
  tracked st -> tracked (addTo sh st) /\ hook_values (addTo sh st) = hook_values st.
Proof. unfold tracked, addTo. intros ->. now split. Qed.

Lemma render_spot_tracked (deLocation : LatLon) (st : State) (spot : Spot) :
  tracked st ->
  tracked (render_spot deLocation st spot)
  /\ hook_values (render_spot deLocation st spot) = hook_values st.
Proof.
  intros Ht. unfold render_spot.
  destruct (negb (truthy_str (or_str (grid spot) (de_grid spot)))); [now split |].
  destruct (gridToLatLon _) as [skimmerLoc|]; [| now split].
  destruct (showPaths st).
  - match goal with |- context [addTo ?m (addTo ?p st)] =>
      destruct (addTo_tracked p st Ht) as [Ht1 Hv1];
      destruct (addTo_tracked m (addTo p st) Ht1) as [Ht2 Hv2]
    end.
    split; [exact Ht2 | now rewrite Hv2].
  - now apply addTo_tracked.
Qed.

Lemma render_spots_tracked (deLocation : LatLon) (l : list Spot) (st : State) :
  tracked st ->
  tracked (fold_left (render_spot deLocation) l st)
  /\ hook_values (fold_left (render_spot deLocation) l st) = hook_values st.
Proof.
  revert st. induction l as [|spot l IH]; intros st Ht; cbn [fold_left]; [now split |].
  destruct (render_spot_tracked deLocation st spot Ht) as [Ht1 Hv1].
  destruct (IH _ Ht1) as [Ht2 Hv2]. split; [exact Ht2 | now rewrite Hv2].
Qed.

Lemma render_effect_tracked (st : State) :
  tracked st ->
  tracked (render_effect st) /\ hook_values (render_effect st) = hook_values st.
Proof.
  intros Ht. unfold render_effect. destruct (enabled st); cbn [negb]; [| now split].
  destruct (clear_layers_tracked st Ht) as (Hr & Hm & Hv).
  assert (Htc : tracked (clear_layers st)) by (unfold tracked; now rewrite Hr, Hm).
  destruct (List.length (spots (clear_layers st)) =? 0)%nat; [now split |].
  match goal with |- context [fold_left (render_spot ?d) ?l ?s] =>
    destruct (render_spots_tracked d l s) as [Ht2 Hv2]; [exact Htc |]
  end.
  split; [exact Ht2 |]. rewrite Hv2. exact Hv.
Qed.

Lemma render_effect_disabled (st : State) : enabled st = false -> render_effect st = st.
Proof. intros E. unfold render_effect. now rewrite E. Qed.

Lemma poll_cleanup_keeps : keeps_layers poll_cleanup.
Proof. intros st. now repeat split. Qed.

Lemma fetchRBNSpots_issue_keeps (c : Closure) : keeps_layers (fetchRBNSpots_issue c).
Proof.
  intros st. unfold fetchRBNSpots_issue.
  destruct (negb (valid_callsign (c_callsign c))); now repeat split.
Qed.

Lemma poll_effect_keeps : keeps_layers poll_effect.
Proof.
  intros st. unfold poll_effect.
  destruct (enabled st && valid_callsign (user_callsign st)); [| now repeat split].
  destruct (fetchRBNSpots_issue_keeps (mkClosure (user_callsign st) (timeWindow st)) st)
    as (Hr & Hm & Hv).
  repeat split; assumption.
Qed.

Lemma removeControl_keeps : keeps_layers removeControl.
Proof. intros st. unfold removeControl. destruct (controlRef st); now repeat split. Qed.

Lemma control_effect_keeps : keeps_layers control_effect.
Proof. intros st. unfold control_effect. destruct (negb (enabled st)); now repeat split. Qed.

Lemma disable_effect_tracked (st : State) :
  tracked st ->
  tracked (disable_effect st)
  /\ hook_values (disable_effect st) = hook_values st
  /\ (enabled st = false -> layersRef (disable_effect st) = []).
Proof.
  intros Ht. unfold disable_effect. destruct (enabled st); cbn [negb].
  - split; [exact Ht |]. split; [reflexivity | discriminate].
  - destruct (clear_layers_tracked st Ht) as (Hr & Hm & Hv).
    destruct (removeControl_keeps (clear_layers st)) as (Hr' & Hm' & Hv').
    unfold tracked. rewrite Hr', Hm', Hv', Hr, Hm. now repeat split.
Qed.

Lemma when_keeps (b : bool) (f : State -> State) :
  keeps_layers f -> keeps_layers (when b f).
Proof. intros Hf st. unfold when. destruct b; [apply Hf | now repeat split]. Qed.

Lemma keeps_tracked (f : State -> State) (st : State) :
  keeps_layers f -> tracked st -> tracked (f st).
Proof. intros Hf Ht. destruct (Hf st) as (Hr & Hm & _). unfold tracked. now rewrite Hr, Hm. Qed.

End SurfaceFacts.

Section Invariant.
Context `{MathObj}.

Lemma hook_values_enabled (a b : State) :
  hook_values a = hook_values b -> enabled a = enabled b.
Proof. unfold hook_values. intros E. now injection E. Qed.

Lemma hook_values_spots (a b : State) :
  hook_values a = hook_values b -> spots a = spots b /\ stats a = stats b.
Proof. unfold hook_values. intros E. now injection E. Qed.

Lemma hook_values_fields (a b : State) :
  hook_values a = hook_values b ->
  enabled a = enabled b /\ opacity a = opacity b /\ user_callsign a = user_callsign b
  /\ spots a = spots b /\ spots_id a = spots_id b /\ selectedBand a = selectedBand b
  /\ timeWindow a = timeWindow b /\ minSNR a = minSNR b /\ showPaths a = showPaths b
  /\ stats a = stats b /\ stats_id a = stats_id b
  /\ window_deLocation a = window_deLocation b.
Proof. unfold hook_values. intros E. injection E. intros. now repeat split. Qed.

(** The effects of a render leave the surface consistent, and the props and
    the values of [useState] alone. *)
Lemma rerender_consistent (prev st : State) :
  tracked st ->
  (enabled prev = false -> enabled st = false -> layersRef st = []) ->
  consistent (rerender prev st) /\ hook_values (rerender prev st) = hook_values st.
Proof.
  intros Ht Hoff. unfold rerender.
  set (p := deps_poll_changed prev st). set (r := deps_render_changed prev st).
  set (c := deps_control_changed prev st).
  assert (Hd : deps_disable_changed prev st = false -> enabled prev = enabled st).
  { unfold deps_disable_changed. intros E. apply negb_false_iff in E.
    now apply Bool.eqb_prop in E. }
  destruct (deps_disable_changed prev st) eqn:Ed; clear Ed.
  all: set (s1 := when p poll_cleanup st).
  all: set (s2 := when c removeControl s1).
  all: set (s3 := when p poll_effect s2).
  all: set (s4 := when r render_effect s3).
  all: set (s5 := when c control_effect s4).
  all: destruct (when_keeps p _ poll_cleanup_keeps st) as (Hr1 & Hm1 & Hv1); fold s1 in Hr1, Hm1, Hv1.
  all: destruct (when_keeps c _ removeControl_keeps s1) as (Hr2 & Hm2 & Hv2); fold s2 in Hr2, Hm2, Hv2.
  all: destruct (when_keeps p _ poll_effect_keeps s2) as (Hr3 & Hm3 & Hv3); fold s3 in Hr3, Hm3, Hv3.
  all: assert (Ht3 : tracked s3) by (unfold tracked; now rewrite Hm3, Hm2, Hm1, Hr3, Hr2, Hr1).
  all: assert (Hv3' : hook_values s3 = hook_values st) by now rewrite Hv3, Hv2, Hv1.
  all: assert (H4 : tracked s4 /\ hook_values s4 = hook_values s3)
         by (unfold s4, when; destruct r; [now apply render_effect_tracked | now split]).
  all: destruct H4 as [Ht4 Hv4].
  all: destruct (when_keeps c _ control_effect_keeps s4) as (Hr5 & Hm5 & Hv5); fold s5 in Hr5, Hm5, Hv5.
  all: assert (Ht5 : tracked s5) by (unfold tracked; now rewrite Hm5, Hr5).
  all: assert (Hv5' : hook_values s5 = hook_values st) by now rewrite Hv5, Hv4.
  - cbn [when]. destruct (disable_effect_tracked s5 Ht5) as (Ht6 & Hv6 & Hoff6).
    split; [| now rewrite Hv6]. split; [exact Ht6 |].
    intros E. apply Hoff6. rewrite <- (hook_values_enabled _ _ Hv6). exact E.
  - cbn [when]. split; [| exact Hv5']. split; [exact Ht5 |].
    intros E5. pose proof (hook_values_enabled _ _ Hv5') as Ee. rewrite E5 in Ee.
    symmetry in Ee. specialize (Hd eq_refl). rewrite Ee in Hd.
    rewrite Hr5. unfold s4, when. destruct r.
    + rewrite render_effect_disabled
        by (rewrite (hook_values_enabled _ _ Hv3'); exact Ee).
      rewrite Hr3, Hr2, Hr1. now apply Hoff.
    + rewrite Hr3, Hr2, Hr1. now apply Hoff.
Qed.

Lemma settle_keeps_layers (c : Closure) (now : Z) (response : Response) (st st' : State) :
  fetchRBNSpots_settle c now response st = Ok st' ->
  layersRef st' = layersRef st /\ map_layers st' = map_layers st
  /\ enabled st' = enabled st /\ inflight st' = inflight st.
Proof.
  unfold fetchRBNSpots_settle, fetchRBNSpots_try, try_catch.
  destruct response as [|status [| | |data]]; [| destruct (negb (response_ok status)) ..];
    intros E; injection E as <-; now repeat split.
Qed.

Lemma mount_consistent (enabled : bool) (opacity : Q) (callsign : option string)
    (deLocation : option LatLon) :
  consistent (mount enabled opacity callsign deLocation).
Proof.
  unfold mount. set (u := unmounted enabled opacity callsign deLocation).
  assert (Hu : tracked u) by reflexivity.
  pose proof (keeps_tracked _ _ poll_effect_keeps Hu) as H1.
  destruct (render_effect_tracked _ H1) as [H2 _].
  pose proof (keeps_tracked _ _ control_effect_keeps H2) as H3.
  destruct (disable_effect_tracked _ H3) as (H4 & Hv & Hoff).
  split; [exact H4 |]. intros E. apply Hoff.
  rewrite <- (hook_values_enabled _ _ Hv). exact E.
Qed.

Lemma step_consistent (st st' : State) (ev : Event) :
  consistent st -> step st ev = Runs st' -> consistent st'.
Proof.
  intros [Ht Hoff] Hstep. destruct ev; cbn [step] in Hstep.
  1-5: injection Hstep as <-; apply rerender_consistent; [exact Ht | intros E _; now apply Hoff].
  - destruct (interval st) as [c|]; injection Hstep as <-; [| now split].
    destruct (fetchRBNSpots_issue_keeps c st) as (Hr & Hm & Hv).
    split; [unfold tracked; now rewrite Hr, Hm |].
    rewrite Hr, (hook_values_enabled _ _ Hv). exact Hoff.
  - destruct (inflight st !! i) as [c|]; [| injection Hstep as <-; now split].
    destruct (fetchRBNSpots_settle c now response _) as [s|e] eqn:Es; [| discriminate].
    injection Hstep as <-. apply settle_keeps_layers in Es as (Hr & Hm & He & _).
    apply rerender_consistent.
    + unfold tracked. rewrite Hr, Hm. exact Ht.
    + intros E _. rewrite Hr. now apply Hoff.
  - injection Hstep as <-. exact (conj Ht Hoff).
Qed.

Lemma run_consistent (evs : list Event) (st st' : State) :
  consistent st -> run st evs = Runs st' -> consistent st'.
Proof.
  revert st. induction evs as [|ev evs IH]; intros st Hc Hrun; cbn [run] in Hrun.
  - now injection Hrun as <-.
  - destruct (step st ev) as [s|e] eqn:Es; [| discriminate].
    exact (IH s (step_consistent _ _ _ Hc Es) Hrun).
Qed.

(** In every state of the hook the surface holds the tracked primitives and
    no other, and none at all while the overlay is disabled. *)
Lemma reachable_consistent (st : State) : reachable st -> consistent st.
Proof.
  intros (e & o & c & d & evs & Hrun).
  exact (run_consistent evs _ _ (mount_consistent e o c d) Hrun).
Qed.

Lemma disabled_surface_empty (st : State) :
  reachable st -> enabled st = false -> map_layers st = [].
Proof.
  intros Hr E. destruct (reachable_consistent st Hr) as [Ht Hoff].
  rewrite Ht. now apply Hoff.
Qed.

End Invariant.

(** C3, as stated, fails: W1AW enables the overlay, a retrieval starts, the
    overlay is disabled, and the response that arrives afterwards becomes the
    retained set and the statistics of the disabled overlay. *)
Lemma late_response_is_applied :
  exists st1 st2,
    @run no_math (@mount no_math true 0.7 (Some "W1AW"%string) None)
      [Props false 0.7 (Some "W1AW"%string)] = Runs st1
    /\ enabled st1 = false /\ inflight st1 = [mkClosure (Some "W1AW"%string) 30]
    /\ spots st1 = [] /\ total (stats st1) = 0%nat
    /\ @step no_math st1 (Settles 0 2000 (Http 200 (JsonArray [silent_spot]))) = Runs st2
    /\ enabled st2 = false
    /\ spots st2 = [silent_spot] /\ total (stats st2) = 1%nat.
Proof.
  do 2 eexists.
  do 8 (split; [vm_compute; reflexivity |]).
  vm_compute. reflexivity.
Qed.

(** C3, amended. When a retrieval settles while the overlay is disabled, its
    response is committed all the same: a well-formed one replaces the
    retained spots and the statistics, no enabled-state being checked.  But
    the redraw pass is gated on the enabled-state, so the drawing surface
    still holds no primitive afterwards. *)
Theorem late_response_draws_nothing `{MathObj} (st : State) (i : nat) (c : Closure)
    (now : Z) (response : Response) :
  reachable st ->
  enabled st = false ->
  inflight st !! i = Some c ->
  exists st',
    step st (Settles i now response) = Runs st'
    /\ enabled st' = false
    /\ map_layers st' = [] /\ layersRef st' = []
    /\ (forall status data,
          response = Http status (JsonArray data) -> response_ok status = true ->
          spots st' = List.filter (is_recent (now - c_timeWindow c * 60 * 1000)) data
          /\ stats st' = computeStats (spots st')).
Proof.
  intros Hreach Hoff Hi.
  pose proof (reachable_consistent st Hreach) as Hc.
  destruct (step_total st (Settles i now response)) as [st' Hstep].
  pose proof (step_consistent _ _ _ Hc Hstep) as [Ht' Hoff'].
  exists st'. split; [exact Hstep |].
  cbn [step] in Hstep. rewrite Hi in Hstep.
  destruct (fetchRBNSpots_settle c now response _) as [s|e] eqn:Es; [| discriminate].
  injection Hstep as <-.
  destruct Hc as [Ht Hl].
  pose proof (settle_keeps_layers _ _ _ _ _ Es) as (Hr & Hm & He & _).
  destruct (rerender_consistent (set_inflight (delete i (inflight st)) st) s) as [_ Hv].
  { unfold tracked. now rewrite Hr, Hm. }
  { intros _ _. rewrite Hr. now apply Hl. }
  assert (E' : enabled (rerender (set_inflight (delete i (inflight st)) st) s) = false).
  { rewrite (hook_values_enabled _ _ Hv), He. exact Hoff. }
  split; [exact E' |]. split; [rewrite Ht'; now apply Hoff' |].
  split; [now apply Hoff' |].
  intros status data -> Hok.
  destruct (hook_values_spots _ _ Hv) as [-> ->].
  unfold fetchRBNSpots_settle, fetchRBNSpots_try in Es. rewrite Hok in Es.
  cbn [negb try_catch] in Es. injection Es as <-. now split.
Qed.

(** W1AW disables the overlay while its first retrieval is in flight. *)
Lemma late_response_draws_nothing_witness :
  exists st',
    @step no_math disabled_in_flight (Settles 0 2000 (Http 200 (JsonArray [silent_spot])))
    = Runs st'
    /\ enabled st' = false
    /\ map_layers st' = [] /\ layersRef st' = []
    /\ (forall status data,
          Http 200 (JsonArray [silent_spot]) = Http status (JsonArray data) ->
          response_ok status = true ->
          spots st' = List.filter (is_recent (2000 - 30 * 60 * 1000)) data
          /\ stats st' = computeStats (spots st')).
Proof.
  refine (@late_response_draws_nothing no_math disabled_in_flight 0%nat
           (mkClosure (Some "W1AW"%string) 30) 2000
           (Http 200 (JsonArray [silent_spot])) _ _ _).
  - exists true, 0.7, (Some "W1AW"%string), None, [Props false 0.7 (Some "W1AW"%string)].
    vm_compute. reflexivity.
  - vm_compute. reflexivity.
  - vm_compute. reflexivity.
Defined.

(** ** The redraw pass: spots without SNR *)





(** * Further properties of the overlay engine *)

(** ** GridLocator: case, length and range *)

Lemma upper_ascii_idem (c : ascii) : upper_ascii (upper_ascii c) = upper_ascii c.
Proof. destruct c as [[] [] [] [] [] [] [] []]; reflexivity. Qed.

Lemma toUpperCase_idem (s : string) : toUpperCase (toUpperCase s) = toUpperCase s.
Proof.
  induction s as [|c s IH]; [reflexivity |].
  cbn [toUpperCase]. now rewrite upper_ascii_idem, IH.
Qed.

Lemma toUpperCase_length (s : string) : String.length (toUpperCase s) = String.length s.
Proof. induction s as [|c s IH]; [reflexivity |]. cbn [toUpperCase String.length]. now rewrite IH. Qed.

(** X1. Two locators of code units below 128 that differ only in the case
    of their letters resolve to the same result; in particular such a
    locator and its upper case do. *)
Theorem gridToLatLon_case_insensitive (g g' : string) :
  ascii_only g = true -> ascii_only g' = true ->
  (toUpperCase g = toUpperCase g' -> gridToLatLon g = gridToLatLon g')
  /\ gridToLatLon (toUpperCase g) = gridToLatLon g.
Proof.
  intros _ _.
  assert (Hcase : forall a b, toUpperCase a = toUpperCase b ->
                              gridToLatLon a = gridToLatLon b).
  { intros a b E.
    assert (Hlen : String.length a = String.length b)
      by now rewrite <- (toUpperCase_length a), E, toUpperCase_length.
    unfold gridToLatLon. now rewrite E, Hlen. }
  split; [apply Hcase |]. apply Hcase. apply toUpperCase_idem.
Qed.

Lemma gridToLatLon_case_insensitive_witness :
  (toUpperCase "fn20xp" = toUpperCase "Fn20Xp"
   -> gridToLatLon "fn20xp" = gridToLatLon "Fn20Xp")
  /\ gridToLatLon (toUpperCase "fn20xp") = gridToLatLon "fn20xp".
Proof. exact (gridToLatLon_case_insensitive "fn20xp" "Fn20Xp" eq_refl eq_refl). Defined.

(** X2. Of a locator of code units below 128 only the first six characters
    are read, and a fifth character without a sixth is ignored. *)
Theorem gridToLatLon_prefix (a b c d e f : ascii) (rest : string) :
  ascii_only (String a (String b (String c (String d (String e (String f rest))))))
  = true ->
  gridToLatLon (String a (String b (String c (String d (String e (String f rest))))))
  = gridToLatLon
      (String a (String b (String c (String d (String e (String f EmptyString))))))
  /\ gridToLatLon (String a (String b (String c (String d (String e EmptyString)))))
     = gridToLatLon (String a (String b (String c (String d EmptyString)))).
Proof. intros _. split; reflexivity. Qed.

Lemma gridToLatLon_prefix_witness :
  gridToLatLon "FN20xp12" = gridToLatLon "FN20xp"
  /\ gridToLatLon "FN20x" = gridToLatLon "FN20".
Proof.
  exact (gridToLatLon_prefix "F" "N" "2" "0" "x" "p" "12" eq_refl).
Defined.

Lemma field_index_bound (c : ascii) (i : nat) : field_index c = Some i -> (i < 18)%nat.
Proof.
  destruct c as [[] [] [] [] [] [] [] []]; intros E; cbv in E; try discriminate E;
    injection E as <-; lia.
Qed.

Lemma subsquare_index_bound (c : ascii) (i : nat) :
  subsquare_index c = Some i -> (i < 24)%nat.
Proof.
  destruct c as [[] [] [] [] [] [] [] []]; intros E; cbv in E; try discriminate E;
    injection E as <-; lia.
Qed.

Lemma digit_index_bound (c : ascii) (i : nat) : digit_index c = Some i -> (i < 10)%nat.
Proof.
  destruct c as [[] [] [] [] [] [] [] []]; intros E; cbv in E; try discriminate E;
    injection E as <-; lia.
Qed.

Lemma nat_Q_bounds (i : nat) (k : Z) :
  (Z.of_nat i <= k)%Z -> 0 <= nat_Q i /\ nat_Q i <= inject_Z k.
Proof.
  intros Hk. unfold nat_Q. split.
  - change 0 with (inject_Z 0). rewrite <- Zle_Qle. lia.
  - now rewrite <- Zle_Qle.
Qed.

(** The corner of the square of a valid locator of four characters. *)
Lemma square4_corner (a b c d : ascii) (sq : Square) :
  square4 a b c d = Some sq ->
  -90 <= sw_lat sq /\ sw_lat sq <= 89 /\ -180 <= sw_lon sq /\ sw_lon sq <= 178
  /\ lat_span sq = 1 /\ lon_span sq = 2.
Proof.
  unfold square4. intros E.
  destruct (field_index a) as [i|] eqn:Ea; [| discriminate].
  destruct (field_index b) as [j|] eqn:Eb; [| discriminate].
  destruct (digit_index c) as [m|] eqn:Ec; [| discriminate].
  destruct (digit_index d) as [n|] eqn:Ed; [| discriminate].
  injection E as <-. cbn [sw_lat sw_lon lat_span lon_span].
  apply field_index_bound in Ea, Eb. apply digit_index_bound in Ec, Ed.
  destruct (nat_Q_bounds i 17) as [Hi0 Hi1]; [lia |].
  destruct (nat_Q_bounds j 17) as [Hj0 Hj1]; [lia |].
  destruct (nat_Q_bounds m 9) as [Hm0 Hm1]; [lia |].
  destruct (nat_Q_bounds n 9) as [Hn0 Hn1]; [lia |].
  change (inject_Z 17) with 17 in *. change (inject_Z 9) with 9 in *.
  generalize dependent (nat_Q i). generalize dependent (nat_Q j).
  generalize dependent (nat_Q m). generalize dependent (nat_Q n).
  intros. repeat split; lra.
Qed.

(** X3. A valid locator of four or six characters resolves to a finite
    coordinate strictly inside the map: latitude between -90 and 90,
    longitude between -180 and 180. *)
Theorem gridToLatLon_in_range (locator : string) (sq : Square) :
  locator_square locator = Some sq ->
  exists c la lo,
    gridToLatLon locator = Some c /\ lat c = Num la /\ lon c = Num lo
    /\ -90 < la /\ la < 90 /\ -180 < lo /\ lo < 180.
Proof.
  intros E.
  destruct locator as [|a [|b [|c [|d [|e [|f [|g r]]]]]]];
    cbn [locator_square] in E; try discriminate E.
  - destruct (square4_centre a b c d sq E) as (c4 & Hc4 & [Hla Hlo] & _).
    destruct (square4_corner a b c d sq E) as (H1 & H2 & H3 & H4 & Hs1 & Hs2).
    destruct c4 as [[la| | |] [lo| | |]]; cbn [num_eq lat lon] in *; try contradiction.
    exists (mkLatLon (Num la) (Num lo)), la, lo.
    unfold centre_lat in Hla. unfold centre_lon in Hlo. rewrite Hs1 in Hla.
    rewrite Hs2 in Hlo. change (1 / 2) with (1 # 2) in Hla. change (2 / 2) with (2 # 2) in Hlo.
    repeat split; try assumption; lra.
  - destruct (square4 a b c d) as [sq4|] eqn:E4; [| discriminate E].
    destruct (subsquare_index e) as [k|] eqn:Ee; [| discriminate E].
    destruct (subsquare_index f) as [l|] eqn:Ef; [| discriminate E].
    destruct (square6_centre a b c d e f sq4 k l E4 Ee Ef) as (c6 & Hc6 & [Hla Hlo]).
    destruct (square4_corner a b c d sq4 E4) as (H1 & H2 & H3 & H4 & _).
    apply subsquare_index_bound in Ee, Ef.
    destruct (nat_Q_bounds k 23) as [Hk0 Hk1]; [lia |].
    destruct (nat_Q_bounds l 23) as [Hl0 Hl1]; [lia |].
    change (inject_Z 23) with 23 in *.
    destruct c6 as [[la| | |] [lo| | |]]; cbn [num_eq lat lon] in *; try contradiction.
    exists (mkLatLon (Num la) (Num lo)), la, lo.
    change (1 / 24 / 2) with (1 # 48) in Hla. change (1 / 24) with (1 # 24) in Hla.
    change (2 / 24 / 2) with (2 # 48) in Hlo. change (2 / 24) with (2 # 24) in Hlo.
    generalize dependent (nat_Q k). generalize dependent (nat_Q l).
    intros. repeat split; try assumption; lra.
Qed.

Lemma gridToLatLon_in_range_witness :
  exists c la lo,
    gridToLatLon "fn20xp" = Some c /\ lat c = Num la /\ lon c = Num lo
    /\ -90 < la /\ la < 90 /\ -180 < lo /\ lo < 180.
Proof.
  refine (gridToLatLon_in_range "fn20xp"
            (mkSquare (40 + (1 / 24) * nat_Q 15) (-76 + (2 / 24) * nat_Q 23)
               (1 / 24) (2 / 24)) _).
  vm_compute. reflexivity.
Defined.

(** ** SignalClassifier: order *)

(** X4. The marker radius never shrinks as the SNR grows, it stays between 6
    and 14, and two SNR values get the same colour exactly when they get
    the same radius. *)
Theorem marker_size_monotone :
  (forall a b, a <= b -> (getMarkerSize (Some a) <= getMarkerSize (Some b))%Z)
  /\ (forall a, (6 <= getMarkerSize (Some a) <= 14)%Z)
  /\ (forall a b, getSNRColor (Some a) = getSNRColor (Some b)
                  <-> getMarkerSize (Some a) = getMarkerSize (Some b)).
Proof.
  split; [| split].
  - intros a b Hab. unfold getMarkerSize.
    destruct (Qltb_spec a 0), (Qltb_spec a 10), (Qltb_spec a 20), (Qltb_spec a 30),
      (Qltb_spec b 0), (Qltb_spec b 10), (Qltb_spec b 20), (Qltb_spec b 30);
      first [lia | exfalso; lra].
  - intros a. unfold getMarkerSize.
    destruct (Qltb a 0), (Qltb a 10), (Qltb a 20), (Qltb a 30); lia.
  - intros a b. unfold getSNRColor, getMarkerSize.
    destruct (Qltb a 0), (Qltb a 10), (Qltb a 20), (Qltb a 30),
      (Qltb b 0), (Qltb b 10), (Qltb b 20), (Qltb b 30);
      split; intros E; first [reflexivity | discriminate E].
Qed.

(** ** GreatCirclePathGenerator: the number of points *)

(** X5. Between two finite coordinates that are at least 0.5 degrees apart
    in latitude or in longitude the path is the interpolation, of
    [numPoints + 1] points (31 with the default of 30). *)
Theorem getGreatCirclePath_length `{MathObj} (a1 o1 a2 o2 : Q) (numPoints : nat) :
  0.5 <= Qabs (a2 - a1) \/ 0.5 <= Qabs (o2 - o1) ->
  getGreatCirclePath (Num a1) (Num o1) (Num a2) (Num o2) numPoints
  = interpolation (Num a1) (Num o1) (Num a2) (Num o2) numPoints
  /\ List.length (getGreatCirclePath (Num a1) (Num o1) (Num a2) (Num o2) numPoints)
     = S numPoints.
Proof.
  intros Hfar.
  assert (E : getGreatCirclePath (Num a1) (Num o1) (Num a2) (Num o2) numPoints
              = interpolation (Num a1) (Num o1) (Num a2) (Num o2) numPoints).
  { unfold getGreatCirclePath. cbn [isFinite negb orb nsub nneg nadd round64].
    destruct Hfar as [Hla | Hlo].
    - now rewrite (binary64_half (a2 + - a1)) by exact Hla.
    - rewrite (binary64_half (o2 + - o1)) by exact Hlo. now rewrite andb_false_r. }
  split; [exact E |]. rewrite E. unfold interpolation.
  now rewrite List.length_map, List.length_seq.
Qed.

(** From Toronto to the centre of FN20. *)
Lemma getGreatCirclePath_length_witness :
  @getGreatCirclePath no_math (Num 43.6785) (Num (-79.2935)) (Num 40.5) (Num (-75)) 30
  = @interpolation no_math (Num 43.6785) (Num (-79.2935)) (Num 40.5) (Num (-75)) 30
  /\ List.length
       (@getGreatCirclePath no_math (Num 43.6785) (Num (-79.2935)) (Num 40.5)
          (Num (-75)) 30) = 31%nat.
Proof.
  refine (@getGreatCirclePath_length no_math 43.6785 (-79.2935) 40.5 (-75) 30 _).
  left. vm_compute. discriminate.
Defined.

(** ** SpotFeed: the statistics *)

Lemma remove_dups_length {A : Type} `{EqDecision A} (l : list A) :
  (List.length (remove_dups l) <= List.length l)%nat.
Proof.
  induction l as [|x l IH]; cbn [remove_dups List.length]; [lia |].
  destruct (decide_rel elem_of x l); cbn [List.length]; lia.
Qed.

(** X6. There are never more reporters than spots; a spot of a reporter
    that is already counted adds none, one of a new reporter adds one; and
    the average is the number 0 exactly when no spot contributes an SNR. *)
Theorem computeStats_counts (retained : list Spot) (s : Spot) :
  (skimmers (computeStats retained) <= total (computeStats retained))%nat
  /\ skimmers (computeStats (s :: retained))
     = (if bool_decide (reporter s ∈ List.map reporter retained)
        then skimmers (computeStats retained)
        else S (skimmers (computeStats retained)))
  /\ (avgSNR (computeStats retained) = VNum 0 <-> validSNRs retained = []).
Proof.
  split; [| split].
  - rewrite computeStats_skimmers, computeStats_total.
    etransitivity; [apply remove_dups_length |]. now rewrite List.length_map.
  - rewrite !computeStats_skimmers. cbn [List.map remove_dups].
    destruct (decide_rel elem_of (reporter s) (List.map reporter retained)) as [Hin | Hout].
    + now rewrite bool_decide_eq_true_2.
    + now rewrite bool_decide_eq_false_2.
  - unfold computeStats. cbn [avgSNR].
    destruct (validSNRs retained) as [|v l]; cbn [List.length Nat.ltb Nat.leb].
    + tauto.
    + split; discriminate.
Qed.

(** ** The lifecycle: what each effect leaves alone *)

Section Frames.
Context `{MathObj}.

Lemma when_frame {V : Type} (v : State -> V) (b : bool) (f : State -> State) :
  (forall st, v (f st) = v st) -> forall st, v (when b f st) = v st.
Proof. intros Hf st. unfold when. destruct b; [apply Hf | reflexivity]. Qed.

Lemma render_spot_frame (deLocation : LatLon) (st : State) (spot : Spot) :
  hook_values (render_spot deLocation st spot) = hook_values st
  /\ polling_values (render_spot deLocation st spot) = polling_values st
  /\ control_values (render_spot deLocation st spot) = control_values st.
Proof. unfold render_spot. repeat case_match; now repeat split. Qed.

Lemma render_spots_frame (deLocation : LatLon) (l : list Spot) (st : State) :
  hook_values (fold_left (render_spot deLocation) l st) = hook_values st
  /\ polling_values (fold_left (render_spot deLocation) l st) = polling_values st
  /\ control_values (fold_left (render_spot deLocation) l st) = control_values st.
Proof.
  revert st. induction l as [|spot l IH]; intros st; cbn [fold_left]; [now repeat split |].
  destruct (IH (render_spot deLocation st spot)) as (-> & -> & ->).
  apply render_spot_frame.
Qed.

Lemma render_effect_frame (st : State) :
  hook_values (render_effect st) = hook_values st
  /\ polling_values (render_effect st) = polling_values st
  /\ control_values (render_effect st) = control_values st.
Proof.
  unfold render_effect. destruct (negb (enabled st)); [now repeat split |].
  destruct (List.length (spots (clear_layers st)) =? 0)%nat; [now repeat split |].
  match goal with |- context [fold_left (render_spot ?d) ?l ?s] =>
    destruct (render_spots_frame d l s) as (-> & -> & ->) end.
  now repeat split.
Qed.

Lemma render_effect_hook (st : State) : hook_values (render_effect st) = hook_values st.
Proof. apply render_effect_frame. Qed.
Lemma render_effect_polling (st : State) :
  polling_values (render_effect st) = polling_values st.
Proof. apply render_effect_frame. Qed.

Lemma poll_cleanup_hook (st : State) : hook_values (poll_cleanup st) = hook_values st.
Proof. reflexivity. Qed.

Lemma poll_effect_hook (st : State) : hook_values (poll_effect st) = hook_values st.
Proof. unfold poll_effect, fetchRBNSpots_issue. now repeat case_match. Qed.

Lemma removeControl_hook (st : State) : hook_values (removeControl st) = hook_values st.
Proof. unfold removeControl. now case_match. Qed.
Lemma removeControl_polling (st : State) :
  polling_values (removeControl st) = polling_values st.
Proof. unfold removeControl. now case_match. Qed.

Lemma control_effect_hook (st : State) : hook_values (control_effect st) = hook_values st.
Proof. unfold control_effect. now case_match. Qed.
Lemma control_effect_polling (st : State) :
  polling_values (control_effect st) = polling_values st.
Proof. unfold control_effect. now case_match. Qed.

Lemma disable_effect_hook (st : State) : hook_values (disable_effect st) = hook_values st.
Proof. unfold disable_effect, removeControl. now repeat case_match. Qed.
Lemma disable_effect_polling (st : State) :
  polling_values (disable_effect st) = polling_values st.
Proof. unfold disable_effect, removeControl. now repeat case_match. Qed.

(** The effects of a render never touch the props and the values of
    [useState]. *)
Lemma rerender_hook (prev st : State) : hook_values (rerender prev st) = hook_values st.
Proof.
  unfold rerender.
  rewrite (when_frame hook_values _ _ disable_effect_hook),
    (when_frame hook_values _ _ control_effect_hook),
    (when_frame hook_values _ _ render_effect_hook),
    (when_frame hook_values _ _ poll_effect_hook),
    (when_frame hook_values _ _ removeControl_hook),
    (when_frame hook_values _ _ poll_cleanup_hook).
  reflexivity.
Qed.

(** What a render does to the polling: when a dependency of the first effect
    changed, the interval is cleared and, with the overlay enabled and a
    valid callsign, one retrieval is issued and a new interval started. *)
Lemma rerender_polling (prev st : State) :
  polling_values (rerender prev st)
  = if deps_poll_changed prev st then
      if enabled st && valid_callsign (user_callsign st)
      then (Some (mkClosure (user_callsign st) (timeWindow st)),
            inflight st ++ [mkClosure (user_callsign st) (timeWindow st)])
      else (None, inflight st)
    else polling_values st.
Proof.
  unfold rerender.
  rewrite (when_frame polling_values _ _ disable_effect_polling),
    (when_frame polling_values _ _ control_effect_polling),
    (when_frame polling_values _ _ render_effect_polling).
  destruct (deps_poll_changed prev st); cbn [when].
  - unfold poll_effect.
    rewrite (hook_values_enabled _ _ (when_frame hook_values _ _ removeControl_hook _)).
    assert (Hc : forall s, user_callsign (when (deps_control_changed prev st) removeControl s)
                           = user_callsign s
                           /\ timeWindow (when (deps_control_changed prev st) removeControl s)
                              = timeWindow s).
    { intros s. unfold when, removeControl. now repeat case_match. }
    destruct (Hc (poll_cleanup st)) as (-> & ->).
    pose proof (when_frame polling_values (deps_control_changed prev st) _
                  removeControl_polling (poll_cleanup st)) as Hpv.
    unfold polling_values in Hpv. injection Hpv as Hint Hin.
    cbn [poll_cleanup set_interval interval inflight] in Hint, Hin.
    cbn [poll_cleanup set_interval enabled user_callsign timeWindow].
    destruct (enabled st && valid_callsign (user_callsign st)) eqn:E.
    + apply andb_true_iff in E as [_ Ev]. unfold fetchRBNSpots_issue.
      cbn [c_callsign]. rewrite Ev. cbn [negb]. unfold polling_values.
      cbn [set_interval set_inflight interval inflight]. now rewrite Hin.
    + unfold polling_values. now rewrite Hint, Hin.
  - now rewrite (when_frame polling_values _ _ removeControl_polling).
Qed.

Lemma deps_poll_unchanged (prev st : State) :
  deps_poll_changed prev st = false ->
  enabled prev = enabled st /\ user_callsign prev = user_callsign st
  /\ timeWindow prev = timeWindow st.
Proof.
  unfold deps_poll_changed. intros E. apply negb_false_iff in E.
  apply andb_true_iff in E as [E Et]. apply andb_true_iff in E as [Ee Ec].
  apply Bool.eqb_prop in Ee. apply bool_decide_eq_true_1 in Ec. apply Z.eqb_eq in Et.
  now repeat split.
Qed.



End Frames.

(** ** The lifecycle: invariants of the main loop *)

Section Invariants.
Context `{MathObj}.

Lemma run_snoc (evs : list Event) (ev : Event) (st st' st'' : State) :
  run st evs = Runs st' -> step st' ev = Runs st'' -> run st (evs ++ [ev]) = Runs st''.
Proof.
  revert st. induction evs as [|e evs IH]; intros st Hrun Hstep; cbn [run app] in *.
  - injection Hrun as ->. now rewrite Hstep.
  - destruct (step st e) as [s|]; [| discriminate]. now apply IH.
Qed.

Lemma run_app_inv (evs : list Event) (ev : Event) (st st'' : State) :
  run st (evs ++ [ev]) = Runs st'' ->
  exists st', run st evs = Runs st' /\ step st' ev = Runs st''.
Proof.
  revert st. induction evs as [|e evs IH]; intros st Hrun; cbn [run app] in *.
  - destruct (step st ev) as [s|] eqn:Es; [| discriminate]. injection Hrun as <-. eauto.
  - destruct (step st e) as [s|]; [| discriminate]. now apply IH.
Qed.

(** Induction over the states of the hook. *)
Lemma reachable_induction (P : State -> Prop) :
  (forall e o c d, P (mount e o c d)) ->
  (forall st ev st', reachable st -> P st -> step st ev = Runs st' -> P st') ->
  forall st, reachable st -> P st.
Proof.
  intros Hmount Hstep st (e & o & c & d & evs & Hrun). revert st Hrun.
  induction evs as [|ev evs IH] using rev_ind; intros st Hrun.
  - injection Hrun as <-. apply Hmount.
  - apply run_app_inv in Hrun as (st' & Hrun & Hs).
    apply (Hstep st' ev st); [now exists e, o, c, d, evs | now apply IH | exact Hs].
Qed.

Lemma mount_hook (e : bool) (o : Q) (c : option string) (d : option LatLon) :
  hook_values (mount e o c d) = hook_values (unmounted e o c d).
Proof.
  unfold mount.
  now rewrite disable_effect_hook, control_effect_hook, render_effect_hook, poll_effect_hook.
Qed.

Lemma mount_polling (e : bool) (o : Q) (c : option string) (d : option LatLon) :
  polling_values (mount e o c d)
  = if e && valid_callsign c
    then (Some (mkClosure c 30), [mkClosure c 30])
    else (None, []).
Proof.
  unfold mount.
  rewrite disable_effect_polling, control_effect_polling, render_effect_polling.
  unfold poll_effect. cbn [unmounted enabled user_callsign timeWindow].
  destruct (e && valid_callsign c) eqn:E; [| reflexivity].
  apply andb_true_iff in E as [_ Ev]. unfold fetchRBNSpots_issue. cbn [c_callsign].
  now rewrite Ev.
Qed.

(** What a settled retrieval leaves alone. *)
Lemma settle_frame (c : Closure) (now : Z) (response : Response) (st s : State) :
  fetchRBNSpots_settle c now response st = Ok s ->
  polling_values s = polling_values st /\ control_values s = control_values st
  /\ enabled s = enabled st /\ user_callsign s = user_callsign st
  /\ timeWindow s = timeWindow st
  /\ ((spots s = spots st /\ stats s = stats st /\ spots_id s = spots_id st
       /\ stats_id s = stats_id st)
      \/ stats s = computeStats (spots s)).
Proof.
  unfold fetchRBNSpots_settle, fetchRBNSpots_try, try_catch.
  destruct response as [|status [| | |data]]; [| destruct (negb (response_ok status)) ..];
    intros E; injection E as <-; repeat split; first [now left | now right].
Qed.

Lemma settle_no_poll (c : Closure) (now : Z) (response : Response) (st s : State) :
  fetchRBNSpots_settle c now response st = Ok s ->
  polling_values (rerender st s) = polling_values st
  /\ hook_values (rerender st s) = hook_values s.
Proof.
  intros Es. destruct (settle_frame _ _ _ _ _ Es) as (Hp & _ & He & Hc & Ht & _).
  split; [| apply rerender_hook]. rewrite rerender_polling.
  unfold deps_poll_changed. rewrite He, Hc, Ht.
  now rewrite Bool.eqb_reflx, Z.eqb_refl, bool_decide_eq_true_2.
Qed.

Lemma polling_invariant (st : State) : reachable st -> polling st.
Proof.
  revert st. apply reachable_induction; unfold polling.
  - intros e o c d. pose proof (mount_polling e o c d) as Hp.
    pose proof (mount_hook e o c d) as Hv. unfold hook_values in Hv.
    injection Hv as -> _ -> _ _ _ -> _ _ _ _ _. cbn [unmounted].
    unfold polling_values in Hp. destruct (e && valid_callsign c); now injection Hp.
  - intros st ev st' _ IH Hstep.
    assert (Hre : forall s, interval s = interval st ->
              (deps_poll_changed st s = false ->
               enabled st = enabled s /\ user_callsign st = user_callsign s
               /\ timeWindow st = timeWindow s) ->
              interval (rerender st s)
              = if enabled (rerender st s) && valid_callsign (user_callsign (rerender st s))
                then Some (mkClosure (user_callsign (rerender st s))
                             (timeWindow (rerender st s)))
                else None).
    { intros s Hi Hun. pose proof (rerender_polling st s) as Hp.
      pose proof (rerender_hook st s) as Hv. unfold hook_values in Hv.
      injection Hv as -> _ -> _ _ _ -> _ _ _ _ _. unfold polling_values in Hp.
      destruct (deps_poll_changed st s).
      - destruct (enabled s && valid_callsign (user_callsign s));
          injection Hp as -> _; reflexivity.
      - injection Hp as -> _. destruct (Hun eq_refl) as (<- & <- & <-).
        rewrite Hi. exact IH. }
    destruct ev; cbn [step] in Hstep.
    1-5: injection Hstep as <-; apply Hre;
      [reflexivity | apply deps_poll_unchanged].
    + assert (Hst' : interval st' = interval st /\ hook_values st' = hook_values st).
      { clear IH Hre. destruct (interval st) as [c|] eqn:Ei; injection Hstep as <-;
          [| now split].
        split; [| apply fetchRBNSpots_issue_keeps].
        unfold fetchRBNSpots_issue.
        destruct (negb (valid_callsign (c_callsign c))); exact Ei. }
      destruct Hst' as [Hi Hv].
      unfold hook_values in Hv. injection Hv as -> _ -> _ _ _ -> _ _ _ _ _.
      rewrite Hi. exact IH.
    + destruct (inflight st !! i) as [c|]; [| now injection Hstep as <-].
      destruct (fetchRBNSpots_settle c now response _) as [s|e] eqn:Es; [| discriminate].
      injection Hstep as <-.
      destruct (settle_no_poll _ _ _ _ _ Es) as [Hp Hv].
      destruct (settle_frame _ _ _ _ _ Es) as (_ & _ & He & Hc & Ht & _).
      unfold hook_values in Hv. injection Hv as -> _ -> _ _ _ -> _ _ _ _ _.
      unfold polling_values in Hp. injection Hp as -> _.
      rewrite He, Hc, Ht. exact IH.
    + injection Hstep as <-. exact IH.
Qed.

Lemma inflight_invariant (st : State) :
  reachable st -> Forall (fun c => valid_callsign (c_callsign c) = true) (inflight st).
Proof.
  revert st. apply reachable_induction.
  - intros e o c d. pose proof (mount_polling e o c d) as Hp. unfold polling_values in Hp.
    destruct (e && valid_callsign c) eqn:E; injection Hp as _ ->; [| constructor].
    apply andb_true_iff in E as [_ Ev]. now repeat constructor.
  - intros st ev st' _ IH Hstep.
    assert (Hre : forall s, inflight s = inflight st ->
              Forall (fun c => valid_callsign (c_callsign c) = true)
                (inflight (rerender st s))).
    { intros s Hi. pose proof (rerender_polling st s) as Hp. unfold polling_values in Hp.
      destruct (deps_poll_changed st s).
      - destruct (enabled s && valid_callsign (user_callsign s)) eqn:E;
          injection Hp as _ ->; rewrite Hi; [| exact IH].
        apply andb_true_iff in E as [_ Ev]. apply Forall_app. split; [exact IH |].
        now repeat constructor.
      - injection Hp as _ ->. now rewrite Hi. }
    destruct ev; cbn [step] in Hstep.
    1-5: injection Hstep as <-; now apply Hre.
    + destruct (interval st) as [c|]; injection Hstep as <-; [| exact IH].
      unfold fetchRBNSpots_issue. destruct (valid_callsign (c_callsign c)) eqn:Ev;
        cbn [negb]; [| exact IH].
      cbn [set_inflight inflight console_log set_console]. apply Forall_app.
      split; [exact IH | now repeat constructor].
    + destruct (inflight st !! i) as [c|]; [| now injection Hstep as <-].
      destruct (fetchRBNSpots_settle c now response _) as [s|e] eqn:Es; [| discriminate].
      injection Hstep as <-.
      destruct (settle_no_poll _ _ _ _ _ Es) as [Hp _].
      unfold polling_values in Hp. injection Hp as _ ->.
      cbn [set_inflight inflight]. now apply Forall_delete.
    + injection Hstep as <-. exact IH.
Qed.

Lemma stats_invariant (st : State) : reachable st -> stats st = computeStats (spots st).
Proof.
  revert st. apply reachable_induction.
  - intros e o c d. pose proof (mount_hook e o c d) as Hv. unfold hook_values in Hv.
    injection Hv as _ _ _ -> _ _ _ _ _ -> _ _. reflexivity.
  - intros st ev st' _ IH Hstep.
    assert (Hre : forall s, stats s = computeStats (spots s) ->
              stats (rerender st s) = computeStats (spots (rerender st s))).
    { intros s Hs. pose proof (rerender_hook st s) as Hv. unfold hook_values in Hv.
      now injection Hv as _ _ _ -> _ _ _ _ _ -> _ _. }
    destruct ev; cbn [step] in Hstep.
    1-5: injection Hstep as <-; now apply Hre.
    + destruct (interval st) as [c|]; injection Hstep as <-; [| exact IH].
      unfold fetchRBNSpots_issue. now case_match.
    + destruct (inflight st !! i) as [c|]; [| now injection Hstep as <-].
      destruct (fetchRBNSpots_settle c now response _) as [s|e] eqn:Es; [| discriminate].
      injection Hstep as <-. apply Hre.
      destruct (settle_frame _ _ _ _ _ Es) as (_ & _ & _ & _ & _ & [(-> & -> & _) | Hs]);
        [exact IH | exact Hs].
    + injection Hstep as <-. exact IH.
Qed.

End Invariants.

Section ControlInvariant.
Context `{MathObj}.





End ControlInvariant.

(** ** The lifecycle: what is drawn *)

Section Drawn.
Context `{MathObj}.

Lemma render_spot_shapes (deLocation : LatLon) (st : State) (spot : Spot) :
  List.map shape (map_layers (render_spot deLocation st spot))
  = List.map shape (map_layers st)
    ++ spot_shapes deLocation (showPaths st) (opacity st) spot.
Proof.
  unfold render_spot, spot_shapes.
  destruct (truthy_str (or_str (grid spot) (de_grid spot))); cbn [negb];
    [| now rewrite app_nil_r].
  destruct (gridToLatLon _) as [skimmerLoc|]; [| now rewrite app_nil_r].
  destruct (showPaths st); unfold addTo;
    cbn [map_layers set_layers opacity next_handle layersRef];
    rewrite ?List.map_app; cbn [List.map shape app]; now rewrite <- ?app_assoc.
Qed.

Lemma render_spots_shapes (deLocation : LatLon) (l : list Spot) (st : State) :
  List.map shape (map_layers (fold_left (render_spot deLocation) l st))
  = List.map shape (map_layers st)
    ++ flat_map (spot_shapes deLocation (showPaths st) (opacity st)) l.
Proof.
  revert st. induction l as [|spot l IH]; intros st; cbn [fold_left flat_map].
  - now rewrite app_nil_r.
  - rewrite IH, render_spot_shapes.
    destruct (render_spot_frame deLocation st spot) as (Hv & _).
    destruct (hook_values_fields _ _ Hv) as (_ & -> & _ & _ & _ & _ & _ & _ & -> & _).
    now rewrite <- app_assoc.
Qed.

Lemma expected_shapes_hook (a b : State) :
  hook_values a = hook_values b -> expected_shapes a = expected_shapes b.
Proof.
  intros E. unfold expected_shapes.
  destruct (hook_values_fields _ _ E)
    as (-> & -> & _ & -> & _ & -> & _ & -> & -> & _ & _ & ->).
  reflexivity.
Qed.

(** After a redraw pass the surface holds the primitives of the eligible
    spots and nothing else. *)
Lemma render_effect_shapes (st : State) :
  tracked st -> enabled st = true ->
  List.map shape (map_layers (render_effect st)) = expected_shapes st.
Proof.
  intros Ht Ee. unfold render_effect, expected_shapes. rewrite Ee. cbn [negb].
  destruct (clear_layers_tracked st Ht) as (_ & Hm & Hv).
  destruct (hook_values_fields _ _ Hv)
    as (_ & Ho & _ & Hs & _ & Hb & _ & Hn & Hp & _ & _ & Hd).
  rewrite Hs, Hb, Hn, Hd.
  destruct (List.length (spots st) =? 0)%nat eqn:E0.
  - apply Nat.eqb_eq in E0. destruct (spots st); [| discriminate E0].
    now rewrite Hm.
  - rewrite render_spots_shapes.
    cbn [console_log set_console map_layers showPaths opacity].
    now rewrite Hm, Hp, Ho.
Qed.

End Drawn.

(** ** The dashboard *)

(** X7. For an elapsed time that is not negative the uptime line splits it
    into days, hours below 24 and minutes below 60, to the minute: what it
    leaves out is less than a minute. *)
Theorem uptime_split (elapsed : Z) :
  (0 <= elapsed)%Z ->
  (0 <= uptime_d elapsed /\ 0 <= uptime_h elapsed < 24 /\ 0 <= uptime_m elapsed < 60
   /\ uptime_d elapsed * 86400000 + uptime_h elapsed * 3600000
      + uptime_m elapsed * 60000 <= elapsed
   /\ elapsed < uptime_d elapsed * 86400000 + uptime_h elapsed * 3600000
                + (uptime_m elapsed + 1) * 60000)%Z.
Proof.
  intros H0. unfold uptime_d, uptime_h, uptime_m. rewrite !Z.rem_mod_nonneg by lia.
  Z.div_mod_to_equations. lia.
Qed.

(** Two days, three hours, four minutes and five seconds. *)
Lemma uptime_split_witness :
  uptime_text 183845000 = "2d 3h 4m"%string
  /\ (0 <= uptime_d 183845000 /\ 0 <= uptime_h 183845000 < 24
      /\ 0 <= uptime_m 183845000 < 60
      /\ uptime_d 183845000 * 86400000 + uptime_h 183845000 * 3600000
         + uptime_m 183845000 * 60000 <= 183845000
      /\ 183845000 < uptime_d 183845000 * 86400000 + uptime_h 183845000 * 3600000
                     + (uptime_m 183845000 + 1) * 60000)%Z.
Proof.
  split; [reflexivity |].
  apply (uptime_split 183845000). vm_compute. discriminate.
Defined.


(** A locator of fewer than four characters does not resolve. *)
Lemma gridToLatLon_None_short (locator : string) :
  (String.length locator < 4)%nat -> gridToLatLon locator = None.
Proof.
  intros Hlen. unfold gridToLatLon. apply Nat.ltb_lt in Hlen. rewrite Hlen.
  now rewrite orb_true_r.
Qed.

(** ** The lifecycle: the properties of a run *)

(** X9. Polling follows the enabled-state: in every state of the hook the
    interval runs exactly while the overlay is enabled with a valid
    callsign, its closure is that of the current callsign and time window,
    and on a disabled overlay a tick of the timer finds nothing to do. *)
Theorem polling_follows_enabled `{MathObj} (st : State) :
  reachable st ->
  polling st
  /\ (interval st <> None
      <-> enabled st = true /\ valid_callsign (user_callsign st) = true)
  /\ (enabled st = false -> step st IntervalFires = Runs st).
Proof.
  intros Hr. pose proof (polling_invariant st Hr) as Hp. split; [exact Hp |].
  unfold polling in Hp. split.
  - rewrite Hp. destruct (enabled st), (valid_callsign (user_callsign st)); cbn;
      split; intros E; try easy; destruct E; discriminate.
  - intros E. rewrite E in Hp. cbn [andb] in Hp. cbn [step]. now rewrite Hp.
Qed.

Lemma polling_follows_enabled_witness :
  polling disabled_in_flight
  /\ (interval disabled_in_flight <> None
      <-> enabled disabled_in_flight = true
          /\ valid_callsign (user_callsign disabled_in_flight) = true)
  /\ (enabled disabled_in_flight = false ->
      @step no_math disabled_in_flight IntervalFires = Runs disabled_in_flight).
Proof.
  refine (@polling_follows_enabled no_math disabled_in_flight _).
  exists true, 0.7, (Some "W1AW"%string), None, [Props false 0.7 (Some "W1AW"%string)].
  vm_compute. reflexivity.
Defined.

(** X10. No retrieval is ever in flight for a missing callsign, an empty
    one or the placeholder N0CALL. *)
Theorem retrievals_need_callsign `{MathObj} (st : State) (c : Closure) :
  reachable st ->
  In c (inflight st) ->
  exists callsign,
    c_callsign c = Some callsign /\ callsign <> ""%string /\ callsign <> "N0CALL"%string.
Proof.
  intros Hr Hin. pose proof (inflight_invariant st Hr) as Hall.
  rewrite List.Forall_forall in Hall. specialize (Hall c Hin).
  unfold valid_callsign, truthy_str in Hall.
  destruct (c_callsign c) as [callsign|]; [| discriminate Hall].
  exists callsign. apply andb_true_iff in Hall as [Hne Hn0].
  split; [reflexivity |]. split.
  - intros ->. discriminate Hne.
  - intros ->. discriminate Hn0.
Qed.

Lemma retrievals_need_callsign_witness :
  exists callsign,
    c_callsign (mkClosure (Some "W1AW"%string) 30) = Some callsign
    /\ callsign <> ""%string /\ callsign <> "N0CALL"%string.
Proof.
  refine (@retrievals_need_callsign no_math disabled_in_flight
            (mkClosure (Some "W1AW"%string) 30) _ _).
  - exists true, 0.7, (Some "W1AW"%string), None, [Props false 0.7 (Some "W1AW"%string)].
    vm_compute. reflexivity.
  - vm_compute. left. reflexivity.
Defined.



(** X12. In every state of the hook the statistics are those of the
    retained spots: the total is their number, and there are no more
    reporters than spots. *)
Theorem stats_follow_spots `{MathObj} (st : State) :
  reachable st ->
  stats st = computeStats (spots st)
  /\ total (stats st) = List.length (spots st)
  /\ (skimmers (stats st) <= List.length (spots st))%nat.
Proof.
  intros Hr. pose proof (stats_invariant st Hr) as Hs. split; [exact Hs |].
  rewrite Hs, computeStats_skimmers. split; [reflexivity |].
  etransitivity; [apply remove_dups_length |]. now rewrite List.length_map.
Qed.

Lemma stats_follow_spots_witness :
  stats showing_one_spot = computeStats (spots showing_one_spot)
  /\ total (stats showing_one_spot) = List.length (spots showing_one_spot)
  /\ (skimmers (stats showing_one_spot) <= List.length (spots showing_one_spot))%nat.
Proof.
  refine (@stats_follow_spots no_math showing_one_spot _).
  exists true, 0.7, (Some "W1AW"%string), None, [Settles 0 2000 (Http 200 (JsonArray [silent_spot]))].
  vm_compute. reflexivity.
Defined.

(** X14. A redraw pass is idempotent: run again on its own result it draws
    the same primitives, as many as before, and tracks all of them. *)
Theorem redraw_is_idempotent `{MathObj} (st : State) :
  tracked st ->
  List.map shape (map_layers (render_effect (render_effect st)))
  = List.map shape (map_layers (render_effect st))
  /\ List.length (map_layers (render_effect (render_effect st)))
     = List.length (map_layers (render_effect st))
  /\ tracked (render_effect (render_effect st)).
Proof.
  intros Ht. destruct (render_effect_tracked st Ht) as [Ht1 Hv1].
  destruct (render_effect_tracked _ Ht1) as [Ht2 _].
  assert (E : List.map shape (map_layers (render_effect (render_effect st)))
              = List.map shape (map_layers (render_effect st))).
  { destruct (enabled st) eqn:Ee.
    - rewrite (render_effect_shapes (render_effect st) Ht1)
        by now rewrite (hook_values_enabled _ _ Hv1).
      rewrite (render_effect_shapes st Ht Ee). now apply expected_shapes_hook.
    - now rewrite !(render_effect_disabled st Ee). }
  split; [exact E |]. split; [| exact Ht2].
  apply (f_equal (@List.length Shape)) in E. now rewrite !List.length_map in E.
Qed.

Lemma redraw_is_idempotent_witness :
  List.map shape (map_layers (@render_effect no_math (@render_effect no_math showing_one_spot)))
  = List.map shape (map_layers (@render_effect no_math showing_one_spot))
  /\ List.length (map_layers (@render_effect no_math (@render_effect no_math showing_one_spot)))
     = List.length (map_layers (@render_effect no_math showing_one_spot))
  /\ tracked (@render_effect no_math (@render_effect no_math showing_one_spot)).
Proof.
  refine (@redraw_is_idempotent no_math showing_one_spot _).
  vm_compute. reflexivity.
Defined.

(** The time of a spot is read from [timestamp] as soon as that field is
    truthy, whatever it parses to: a string that parses to the epoch hides a
    recent [time], while the number 0 gives way to it. *)
Example is_recent_reads_the_raw_field :
  is_recent 1000
    (mkSpot None None Undefined Undefined None None None None
       (TString "1970-01-01T00:00:00.000Z" (Some 0%Z)) (TNumber 2000)) = false
  /\ is_recent 1000
       (mkSpot None None Undefined Undefined None None None None
          (TNumber 0) (TNumber 2000)) = true
  /\ is_recent (-1000)
       (mkSpot None None Undefined Undefined None None None None
          TNull TNull) = true
  /\ is_recent (-1000)
       (mkSpot None None Undefined Undefined None None None None
          TUndefined TUndefined) = false.
Proof. repeat split; vm_compute; reflexivity. Qed.



(** X16. A 2xx response whose body is JSON but no array changes neither the
    retained spots, nor the statistics, nor the surface: the document
    [null] is reported on the console as an error, any other value only
    leaves the line of the reception. *)
Theorem non_array_body_is_ignored `{MathObj} (st : State) (i : nat) (c : Closure)
    (now status : Z) (body : Body) :
  inflight st !! i = Some c ->
  response_ok status = true ->
  body = JsonNull \/ body = JsonOther ->
  exists st' entry,
    step st (Settles i now (Http status body)) = Runs st'
    /\ st' = set_console (console st ++ [entry])
               (set_inflight (delete i (inflight st)) st)
    /\ spots st' = spots st /\ stats st' = stats st /\ map_layers st' = map_layers st
    /\ entry = match body with
               | JsonNull => Error "[RBN] Error fetching spots:" "TypeError"
               | _ => Log "[RBN] Received spots"
               end.
Proof.
  intros Hi Hok Hbody. cbn [step]. rewrite Hi.
  unfold fetchRBNSpots_settle, fetchRBNSpots_try. rewrite Hok. cbn [negb].
  destruct Hbody as [-> | ->]; cbn [try_catch];
    rewrite rerender_same_deps by (repeat split);
    eexists _, _; repeat split.
Qed.

Lemma non_array_body_is_ignored_witness :
  exists st' entry,
    @step no_math disabled_in_flight (Settles 0 2000 (Http 200 JsonNull)) = Runs st'
    /\ st' = set_console (console disabled_in_flight ++ [entry])
               (set_inflight (delete 0%nat (inflight disabled_in_flight))
                  disabled_in_flight)
    /\ spots st' = spots disabled_in_flight /\ stats st' = stats disabled_in_flight
    /\ map_layers st' = map_layers disabled_in_flight
    /\ entry = Error "[RBN] Error fetching spots:" "TypeError".
Proof.
  refine (@non_array_body_is_ignored no_math disabled_in_flight 0%nat
            (mkClosure (Some "W1AW"%string) 30) 2000 200 JsonNull _ _ _).
  - vm_compute. reflexivity.
  - reflexivity.
  - left. reflexivity.
Defined.

(** X17. Changing the band, the SNR floor or the path switch redraws at most:
    no retrieval is issued and the interval is left as it is. *)
Theorem filters_do_not_refetch `{MathObj} (st : State) (band : string) (floor : Q)
    (checked : bool) :
  (exists st', step st (SelectBand band) = Runs st'
               /\ inflight st' = inflight st /\ interval st' = interval st)
  /\ (exists st', step st (SlideMinSNR floor) = Runs st'
                  /\ inflight st' = inflight st /\ interval st' = interval st)
  /\ (exists st', step st (CheckPaths checked) = Runs st'
                  /\ inflight st' = inflight st /\ interval st' = interval st).
Proof.
  assert (Hre : forall s, enabled s = enabled st -> user_callsign s = user_callsign st ->
              timeWindow s = timeWindow st -> polling_values s = polling_values st ->
              inflight (rerender st s) = inflight st
              /\ interval (rerender st s) = interval st).
  { intros s He Hc Ht Hp. pose proof (rerender_polling st s) as Hr.
    unfold deps_poll_changed in Hr. rewrite He, Hc, Ht in Hr.
    rewrite Bool.eqb_reflx, Z.eqb_refl, bool_decide_eq_true_2 in Hr by reflexivity.
    cbn [andb negb] in Hr. rewrite Hp in Hr.
    split; [exact (f_equal snd Hr) | exact (f_equal fst Hr)]. }
  repeat split; eexists; (split; [reflexivity | now apply Hre]).
Qed.

(** X18. Moving the time window of an enabled overlay with a valid callsign
    to another value restarts the polling: one more retrieval is in
    flight, issued with the new window, and the interval holds the new
    closure. *)
Theorem time_window_refetches `{MathObj} (st : State) (minutes : Z) :
  enabled st = true ->
  valid_callsign (user_callsign st) = true ->
  minutes <> timeWindow st ->
  exists st',
    step st (SlideTimeWindow minutes) = Runs st'
    /\ inflight st' = inflight st ++ [mkClosure (user_callsign st) minutes]
    /\ interval st' = Some (mkClosure (user_callsign st) minutes)
    /\ timeWindow st' = minutes /\ spots st' = spots st.
Proof.
  intros He Hv Hm. eexists. split; [reflexivity |].
  pose proof (rerender_polling st (setTimeWindow minutes st)) as Hp.
  pose proof (rerender_hook st (setTimeWindow minutes st)) as Hh.
  destruct (hook_values_fields _ _ Hh) as (_ & _ & _ & -> & _ & _ & -> & _).
  assert (Ed : deps_poll_changed st (setTimeWindow minutes st) = true).
  { unfold deps_poll_changed. cbn [setTimeWindow enabled user_callsign timeWindow].
    assert (Hz : (timeWindow st =? minutes)%Z = false) by (apply Z.eqb_neq; congruence).
    rewrite Hz. now rewrite andb_false_r. }
  rewrite Ed in Hp. cbn [setTimeWindow enabled user_callsign timeWindow inflight] in Hp.
  rewrite He, Hv in Hp. cbn [andb] in Hp.
  split; [exact (f_equal snd Hp) |]. split; [exact (f_equal fst Hp) |].
  now split.
Qed.

Lemma time_window_refetches_witness :
  exists st',
    @step no_math showing_one_spot (SlideTimeWindow 60) = Runs st'
    /\ inflight st' = inflight showing_one_spot
                      ++ [mkClosure (user_callsign showing_one_spot) 60]
    /\ interval st' = Some (mkClosure (user_callsign showing_one_spot) 60)
    /\ timeWindow st' = 60%Z /\ spots st' = spots showing_one_spot.
Proof.
  refine (@time_window_refetches no_math showing_one_spot 60 _ _ _).
  - vm_compute. reflexivity.
  - vm_compute. reflexivity.
  - vm_compute. discriminate.
Defined.

(** X19. A spot without locator, or with one of fewer than four characters,
    is never drawn: the redraw pass leaves the hook and the surface as they
    are.  It counts in the statistics all the same. *)
Theorem unlocated_spot_is_not_drawn `{MathObj} (spot : Spot) :
  truthy_str (or_str (grid spot) (de_grid spot)) = false
  \/ (exists g, or_str (grid spot) (de_grid spot) = Some g /\ (String.length g < 4)%nat) ->
  (forall deLocation st, render_spot deLocation st spot = st)
  /\ (forall deLocation showPaths opacity,
        spot_shapes deLocation showPaths opacity spot = [])
  /\ (forall retained,
        total (computeStats (spot :: retained)) = S (total (computeStats retained))).
Proof.
  intros Hloc.
  assert (Hno : truthy_str (or_str (grid spot) (de_grid spot)) = false
                \/ gridToLatLon (default EmptyString (or_str (grid spot) (de_grid spot)))
                   = None).
  { destruct Hloc as [Hf | (g & -> & Hlen)]; [now left | right].
    now apply gridToLatLon_None_short. }
  split; [| split].
  - intros deLocation st. unfold render_spot. destruct Hno as [-> | ->]; [reflexivity |].
    now destruct (negb _).
  - intros deLocation showPaths opacity. unfold spot_shapes.
    destruct Hno as [-> | ->]; [reflexivity |]. now destruct (truthy_str _).
  - reflexivity.
Qed.

Lemma unlocated_spot_is_not_drawn_witness :
  (forall deLocation st, @render_spot no_math deLocation st unlocated_spot = st)
  /\ (forall deLocation showPaths opacity,
        @spot_shapes no_math deLocation showPaths opacity unlocated_spot = [])
  /\ (forall retained,
        total (computeStats (unlocated_spot :: retained))
        = S (total (computeStats retained))).
Proof.
  refine (@unlocated_spot_is_not_drawn no_math unlocated_spot _).
  right. exists "FN"%string. split; [reflexivity | vm_compute; lia].
Defined.

(** X20. As long as no retained spot has an [snr] of 0 and the SNR values
    are whole decibels, the statistics are the count, the number of distinct
    reporters and, where the specification asks for the mean of the SNR
    values present rounded to one decimal place, [toFixed(1)] of the
    binary64 number nearest to that mean: the sum is exact, the quotient is
    rounded once before it is printed.  The average is the number 0 when no
    spot carries an SNR. *)
Theorem computeStats_meets_spec (retained : list Spot) :
  Forall (fun s => forall q, snr s = Some q -> ~ q == 0) retained ->
  Forall whole_dB (omap present_snr retained) ->
  (Z.of_nat (List.length retained) <= 1000000)%Z ->
  computeStats retained
  = mkStats (List.length retained)
      (List.length (remove_dups (List.map reporter retained)))
      (match omap present_snr retained with
       | [] => VNum 0
       | values => VStr (toFixed (binary64 (mean values)))
       end).
Proof.
  intros Hnz Hw Hlen. rewrite <- computeStats_skimmers.
  unfold computeStats. rewrite (validSNRs_present retained Hnz). cbn [skimmers].
  f_equal. pose proof (omap_length_le present_snr retained) as Hle.
  destruct (omap present_snr retained) as [|v values] eqn:Ev; [reflexivity |].
  cbn [List.length Nat.ltb Nat.leb]. f_equal. f_equal.
  destruct (reduce_exact (v :: values) 0 Hw) as (K & EK & HK).
  { cbn [Z.abs]. lia. }
  unfold reduce_sum. change (Num 0) with (Num (inject_Z 0)). rewrite EK.
  unfold of_nat. cbn [ndiv].
  destruct (Qeq_bool (inject_Z (Z.of_nat (S (List.length values)))) 0) eqn:E0.
  { apply Qeq_bool_iff in E0. unfold Qeq, inject_Z in E0. cbn [Qnum Qden] in E0. lia. }
  cbn [round64]. apply binary64_comp. unfold mean, nat_Q.
  rewrite HK. change (inject_Z 0) with 0. now rewrite Qplus_0_l.
Qed.

(** Three spots, two reporters, one spot without SNR; and twenty spots whose
    mean of 1.15 dB is printed as 1.1, the binary64 number nearest to 1.15
    being below it. *)
Lemma computeStats_meets_spec_witness :
  computeStats [heard (Some 10) "W1AW"; heard (Some 20) "K1TTT"; heard None "W1AW"]
  = mkStats 3 2 (VStr "15.0")
  /\ computeStats (repeat (heard (Some 1) "W1AW") 17 ++ repeat (heard (Some 2) "W1AW") 3)
     = mkStats 20 1 (VStr "1.1").
Proof.
  split.
  - refine (eq_trans
              (computeStats_meets_spec
                 [heard (Some 10) "W1AW"; heard (Some 20) "K1TTT"; heard None "W1AW"]
                 _ _ _) _).
    + repeat constructor; cbn [heard snr]; intros q E; try discriminate E;
        injection E as <-; vm_compute; discriminate.
    + repeat constructor; [exists 10%Z | exists 20%Z]; split; (reflexivity || (cbn; lia)).
    + cbn. lia.
    + vm_compute. reflexivity.
  - vm_compute. reflexivity.
Defined.

(** X21. A spot without frequency, like every frequency below 1800 or from
    54000 on, is on no band: the band filter drops it for every selection
    of a band, and lets it through for All. *)
Theorem missing_frequency_is_other (spot : Spot) (band : string) (minSNR : Q) :
  freq_of spot < 1800 \/ 54000 <= freq_of spot ->
  freqToBand (freq_of spot) = "Other"%string
  /\ (band <> "All"%string -> band <> "Other"%string ->
      keep_spot band minSNR spot = false)
  /\ keep_spot "All" minSNR spot = negb (Qltb (snr_of spot) minSNR).
Proof.
  intros Hout.
  assert (Ho : freqToBand (freq_of spot) = "Other"%string).
  { assert (Hq : freq_of spot / 1000 < 1.8 \/ 54 <= freq_of spot / 1000).
    { destruct Hout as [Hlo | Hhi]; [left | right].
      - apply Qlt_shift_div_r; [reflexivity | lra].
      - apply Qle_shift_div_l; [reflexivity | lra]. }
    unfold freqToBand. generalize dependent (freq_of spot / 1000). intros x Hx.
    band_cascade; first [reflexivity | exfalso; lra]. }
  split; [exact Ho |]. unfold keep_spot. rewrite Ho. split.
  - intros Hall Hoth.
    destruct (String.eqb_spec band "All"); [contradiction |].
    destruct (String.eqb_spec "Other" band); [now subst |]. reflexivity.
  - cbn [String.eqb Ascii.eqb Bool.eqb negb andb]. now destruct (Qltb _ _).
Qed.

Lemma missing_frequency_is_other_witness :
  freqToBand (freq_of (heard (Some 5) "W1AW")) = "Other"%string
  /\ ("20m"%string <> "All"%string -> "20m"%string <> "Other"%string ->
      keep_spot "20m" (-10) (heard (Some 5) "W1AW") = false)
  /\ keep_spot "All" (-10) (heard (Some 5) "W1AW")
     = negb (Qltb (snr_of (heard (Some 5) "W1AW")) (-10)).
Proof.
  apply (missing_frequency_is_other (heard (Some 5) "W1AW") "20m" (-10)).
  left. vm_compute. reflexivity.
Defined.
